(** * VibeSDK command-line client: creation-stream reader, message dispatcher
      and artifact writer

    Shallow embedding of [cli-tool/src/index.ts] (with the interfaces of
    [cli-tool/src/types.ts]) and the properties of its specification.

    Strings are strings of bytes (UTF-8).  The parts of the JavaScript
    runtime the client calls ([String.prototype.split], [trim], [includes],
    [substring], [length], [JSON.parse], [path.join], [path.dirname]) are
    modelled first; the client's own functions follow, one definition per
    source function: [saveFile], [createAgent], [handleWebSocketMessage],
    [sendMessage] and a turn of [commandLoop]; [formatFileSize] and the
    loop of [commandLoop] come with the further properties.
    [connectWebSocket] (the set-up of the channel) and the prompts of
    [main] are left out. *)

From Stdlib Require Import String Ascii List ZArith Bool Lia.
From stdpp Require Import base option list strings gmap pretty.
Import ListNotations.

Local Open Scope string_scope.
Local Open Scope list_scope.
Local Open Scope nat_scope.

(** ** Characters used by the sources *)

Definition LF : ascii := "010"%char.
Definition CR : ascii := "013"%char.
Definition DQUOTE : ascii := "034"%char.
Definition BACKSLASH : ascii := "092"%char.

(** The one-line text made of a newline: the separator of the stream. *)
Definition nl : string := String LF "".

(** [quoted s] is [s] between double quotes, to write JSON texts. *)
Definition quoted (s : string) : string :=
  String DQUOTE (s +:+ String DQUOTE "").

(** ** JavaScript strings *)

Module JsString.

(** [s.split(sep)] for a separator of one character: never empty, the last
    element is what follows the last separator. *)
Fixpoint split (sep : ascii) (s : string) : list string :=
  match s with
  | "" => [""]
  | String c s' =>
      if Ascii.eqb c sep then "" :: split sep s'
      else match split sep s' with
           | [] => [String c ""]
           | l :: ls => String c l :: ls
           end
  end.

(** [lines.pop()]: the last element, and the array without it. *)
Definition pop (lines : list string) : option string * list string :=
  (last lines, removelast lines).

(** White space of one byte: TAB, LF, VT, FF, CR, SP. *)
Definition is_space (c : ascii) : bool :=
  let n := nat_of_ascii c in
  ((9 <=? n) && (n <=? 13)) || (n =? 32).

(** Third byte of the white-space characters U+2000..U+200A, U+2028,
    U+2029 and U+202F, whose first two bytes are E2 80. *)
Definition is_space_e2_80 (c : ascii) : bool :=
  let n := nat_of_ascii c in
  ((128 <=? n) && (n <=? 138)) || (n =? 168) || (n =? 169) || (n =? 175).

Definition byte (c : ascii) : nat := nat_of_ascii c.

(** The white-space characters of two and three bytes: U+00A0; U+1680,
    U+2000..U+200A, U+2028, U+2029, U+202F, U+205F, U+3000, U+FEFF. *)
Definition is_space2 (c1 c2 : ascii) : bool :=
  (byte c1 =? 194) && (byte c2 =? 160).

Definition is_space3 (c1 c2 c3 : ascii) : bool :=
  ((byte c1 =? 225) && (byte c2 =? 154) && (byte c3 =? 128))
  || ((byte c1 =? 226) && (byte c2 =? 128) && is_space_e2_80 c3)
  || ((byte c1 =? 226) && (byte c2 =? 129) && (byte c3 =? 159))
  || ((byte c1 =? 227) && (byte c2 =? 128) && (byte c3 =? 128))
  || ((byte c1 =? 239) && (byte c2 =? 187) && (byte c3 =? 191)).

(** [s.trimStart()]: drops the leading white space. *)
Fixpoint trimStart (s : string) : string :=
  match s with
  | "" => ""
  | String c1 r1 =>
      if is_space c1 then trimStart r1
      else
        match r1 with
        | "" => s
        | String c2 r2 =>
            if is_space2 c1 c2 then trimStart r2
            else
              match r2 with
              | "" => s
              | String c3 r3 =>
                  if is_space3 c1 c2 c3 then trimStart r3 else s
              end
        end
  end.

(** The same on the reversed string, where the bytes of a character come
    last byte first. *)
Fixpoint trimStart_rev (s : string) : string :=
  match s with
  | "" => ""
  | String c1 r1 =>
      if is_space c1 then trimStart_rev r1
      else
        match r1 with
        | "" => s
        | String c2 r2 =>
            if is_space2 c2 c1 then trimStart_rev r2
            else
              match r2 with
              | "" => s
              | String c3 r3 =>
                  if is_space3 c3 c2 c1 then trimStart_rev r3 else s
              end
        end
  end.

Definition trimEnd (s : string) : string :=
  String.rev (trimStart_rev (String.rev s)).

(** [s.trim()]. *)
Definition trim (s : string) : string := trimEnd (trimStart s).

(** [s.startsWith(p)]. *)
Definition startsWith (s p : string) : bool := String.prefix p s.

(** [s.includes(sub)]. *)
Fixpoint includes (s sub : string) : bool :=
  String.prefix sub s
  || match s with
     | "" => false
     | String _ s' => includes s' sub
     end.

(** *** Code units

    A JavaScript string is a sequence of UTF-16 code units, which [length]
    and [substring] count; a string here holds the bytes of its UTF-8 form,
    a lone surrogate as the three bytes UTF-8 would give its value (as
    [JSON.parse] below writes one).  A character of one to three bytes is
    one code unit, a character of four bytes is two, a surrogate pair. *)

(** The first [n] bytes of [s], and [s] without them. *)
Fixpoint take (n : nat) (s : string) : string :=
  match n, s with
  | S n', String c r => String c (take n' r)
  | _, _ => ""
  end.

Fixpoint drop (n : nat) (s : string) : string :=
  match n, s with
  | S n', String _ r => drop n' r
  | _, _ => s
  end.

(** The number of bytes of the character whose first byte is [c], in
    well-formed text; a byte that starts no character counts as one. *)
Definition width (c : ascii) : nat :=
  let n := N_of_ascii c in
  if (n <? 192)%N then 1
  else if (n <? 224)%N then 2
  else if (n <? 240)%N then 3
  else 4.

Definition byte_at (i : nat) (s : string) : N :=
  match String.get i s with
  | Some c => N_of_ascii c
  | None => 0%N
  end.

(** The code point of a character, from its bytes. *)
Definition code_point (ch : string) : N :=
  match ch with
  | "" => 0%N
  | String c _ =>
      match width c with
      | 1 => byte_at 0 ch
      | 2 => (byte_at 0 ch mod 32 * 64 + byte_at 1 ch mod 64)%N
      | 3 => (byte_at 0 ch mod 16 * 4096 + byte_at 1 ch mod 64 * 64
              + byte_at 2 ch mod 64)%N
      | _ => (byte_at 0 ch mod 8 * 262144 + byte_at 1 ch mod 64 * 4096
              + byte_at 2 ch mod 64 * 64 + byte_at 3 ch mod 64)%N
      end
  end.

Definition high_surrogate (cp : N) : N := (55296 + (cp - 65536) / 1024)%N.
Definition low_surrogate (cp : N) : N := (56320 + (cp - 65536) mod 1024)%N.

(** The code units of a character. *)
Definition char_units (ch : string) : list N :=
  match ch with
  | "" => []
  | String c _ =>
      if width c =? 4
      then [high_surrogate (code_point ch); low_surrogate (code_point ch)]
      else [code_point ch]
  end.

(** The three bytes of a code unit that stands alone. *)
Definition three_bytes (u : N) : string :=
  String (ascii_of_N (224 + u / 4096))
    (String (ascii_of_N (128 + (u / 64) mod 64))
       (String (ascii_of_N (128 + u mod 64)) "")).

(** The code units of a string, character by character. *)
Fixpoint units_from (fuel : nat) (s : string) : list N :=
  match fuel, s with
  | S fuel', String c _ =>
      char_units (take (width c) s) ++ units_from fuel' (drop (width c) s)
  | _, _ => []
  end.

Definition units (s : string) : list N := units_from (String.length s) s.

(** [s.substring(0, n)]: the first [n] code units.  Cut between the two
    halves of a surrogate pair, it ends with the first half alone. *)
Fixpoint substring0 (n : nat) (s : string) : string :=
  match n, s with
  | S n', String c _ =>
      if width c =? 4 then
        match n' with
        | 0 => three_bytes (high_surrogate (code_point (take 4 s)))
        | S n'' => take 4 s +:+ substring0 n'' (drop 4 s)
        end
      else take (width c) s +:+ substring0 n' (drop (width c) s)
  | _, _ => ""
  end.

(** [!s] for a string: the empty string is the only falsy one. *)
Definition truthy (s : string) : bool :=
  match s with "" => false | _ => true end.

(** [s.length]: the number of code units. *)
Definition length (s : string) : nat := List.length (units s).

End JsString.

Arguments JsString.substring0 : simpl never.
Arguments JsString.units : simpl never.

(** ** JSON values and [JSON.parse] *)

#[warnings="-register-all"]
Inductive json : Type :=
| JNull
| JBool (b : bool)
| JNumber (literal : string)
| JString (s : string)
| JArray (items : list json)
| JObject (members : list (string * json)).

Module JSON.

Definition is_ws (c : ascii) : bool :=
  let n := nat_of_ascii c in
  (n =? 32) || (n =? 9) || (n =? 10) || (n =? 13).

Fixpoint skip_ws (s : string) : string :=
  match s with
  | String c r => if is_ws c then skip_ws r else s
  | "" => ""
  end.

Definition is_digit (c : ascii) : bool :=
  let n := nat_of_ascii c in (48 <=? n) && (n <=? 57).

(** The longest prefix of digits, and what follows it. *)
Fixpoint digits (s : string) : string * string :=
  match s with
  | String c r =>
      if is_digit c then let '(d, r') := digits r in (String c d, r')
      else ("", s)
  | "" => ("", "")
  end.

Definition hex_value (c : ascii) : option N :=
  let n := N_of_ascii c in
  if ((48 <=? n) && (n <=? 57))%N then Some (n - 48)%N
  else if ((65 <=? n) && (n <=? 70))%N then Some (n - 55)%N
  else if ((97 <=? n) && (n <=? 102))%N then Some (n - 87)%N
  else None.

(** Four hexadecimal digits, as after a backslash and [u]. *)
Definition hex4 (s : string) : option (N * string) :=
  match s with
  | String a (String b (String c (String d r))) =>
      match hex_value a, hex_value b, hex_value c, hex_value d with
      | Some x, Some y, Some z, Some t =>
          Some (((x * 16 + y) * 16 + z) * 16 + t, r)%N
      | _, _, _, _ => None
      end
  | _ => None
  end.

(** The bytes (UTF-8) of a code point. *)
Definition utf8 (n : N) (k : string) : string :=
  let b (x : N) := ascii_of_N x in
  if (n <? 128)%N then String (b n) k
  else if (n <? 2048)%N then
    String (b (192 + n / 64)%N) (String (b (128 + n mod 64)%N) k)
  else if (n <? 65536)%N then
    String (b (224 + n / 4096)%N)
      (String (b (128 + (n / 64) mod 64)%N)
         (String (b (128 + n mod 64)%N) k))
  else
    String (b (240 + n / 262144)%N)
      (String (b (128 + (n / 4096) mod 64)%N)
         (String (b (128 + (n / 64) mod 64)%N)
            (String (b (128 + n mod 64)%N) k))).

(** The characters of a string literal after its opening quote, decoded,
    and what follows the closing quote.  A control character must be
    escaped; a pair of surrogate escapes is one code point. *)
Fixpoint string_body (fuel : nat) (s : string) : option (string * string) :=
  match fuel, s with
  | O, _ | _, "" => None
  | S fuel, String c r =>
      if Ascii.eqb c DQUOTE then Some ("", r)
      else if Ascii.eqb c BACKSLASH then
        match r with
        | "" => None
        | String e r' =>
            let simple (x : ascii) :=
              match string_body fuel r' with
              | Some (t, k) => Some (String x t, k)
              | None => None
              end in
            if Ascii.eqb e DQUOTE then simple DQUOTE
            else if Ascii.eqb e BACKSLASH then simple BACKSLASH
            else if Ascii.eqb e "/" then simple "/"%char
            else if Ascii.eqb e "b" then simple "008"%char
            else if Ascii.eqb e "f" then simple "012"%char
            else if Ascii.eqb e "n" then simple LF
            else if Ascii.eqb e "r" then simple CR
            else if Ascii.eqb e "t" then simple "009"%char
            else if Ascii.eqb e "u" then
              match hex4 r' with
              | None => None
              | Some (hi, r2) =>
                  let single :=
                    match string_body fuel r2 with
                    | Some (t, k) => Some (utf8 hi t, k)
                    | None => None
                    end in
                  if ((55296 <=? hi) && (hi <=? 56319))%N then
                    match r2 with
                    | String b1 (String u1 r3) =>
                        if Ascii.eqb b1 BACKSLASH && Ascii.eqb u1 "u" then
                          match hex4 r3 with
                          | Some (lo, r4) =>
                              if ((56320 <=? lo) && (lo <=? 57343))%N then
                                match string_body fuel r4 with
                                | Some (t, k) =>
                                    Some (utf8 (65536 + (hi - 55296) * 1024
                                                + (lo - 56320))%N t, k)
                                | None => None
                                end
                              else single
                          | None => single
                          end
                        else single
                    | _ => single
                    end
                  else single
              end
            else None
        end
      else if nat_of_ascii c <? 32 then None
      else
        match string_body fuel r with
        | Some (t, k) => Some (String c t, k)
        | None => None
        end
  end.

(** A number literal: its text and what follows it. *)
Definition number (s : string) : option (string * string) :=
  let '(sign, s1) :=
    match s with
    | String "-" r => ("-", r)
    | _ => ("", s)
    end in
  let '(int, s2) := digits s1 in
  let int_ok :=
    match int with
    | "" => false
    | String "0" (String _ _) => false
    | _ => true
    end in
  if negb int_ok then None
  else
    let frac :=
      match s2 with
      | String "." r =>
          let '(d, r') := digits r in
          match d with "" => None | _ => Some ("." +:+ d, r') end
      | _ => Some ("", s2)
      end in
    match frac with
    | None => None
    | Some (f, s3) =>
        let exp :=
          match s3 with
          | String e r =>
              if Ascii.eqb e "e" || Ascii.eqb e "E" then
                let '(sg, r1) :=
                  match r with
                  | String "+" r0 => ("+", r0)
                  | String "-" r0 => ("-", r0)
                  | _ => ("", r)
                  end in
                let '(d, r') := digits r1 in
                match d with
                | "" => None
                | _ => Some (String e (sg +:+ d), r')
                end
              else Some ("", s3)
          | "" => Some ("", s3)
          end in
        match exp with
        | None => None
        | Some (x, s4) => Some (sign +:+ int +:+ f +:+ x, s4)
        end
    end.

(** One value, and what follows it.  [elements] reads what follows the
    opening bracket of a non-empty array, [members] what follows the
    opening brace of a non-empty object; [fuel] bounds the number of
    calls, which the length of the text bounds too. *)
Fixpoint value (fuel : nat) (s : string) : option (json * string) :=
  match fuel with
  | O => None
  | S fuel =>
      match s with
      | "" => None
      | String c r =>
          if Ascii.eqb c "{" then
            match skip_ws r with
            | String "}" k => Some (JObject [], k)
            | r' => members fuel r' []
            end
          else if Ascii.eqb c "[" then
            match skip_ws r with
            | String "]" k => Some (JArray [], k)
            | r' => elements fuel r' []
            end
          else if Ascii.eqb c DQUOTE then
            match string_body (String.length r) r with
            | Some (t, k) => Some (JString t, k)
            | None => None
            end
          else if String.prefix "true" s then
            Some (JBool true, String.substring 4 (String.length s) s)
          else if String.prefix "false" s then
            Some (JBool false, String.substring 5 (String.length s) s)
          else if String.prefix "null" s then
            Some (JNull, String.substring 4 (String.length s) s)
          else
            match number s with
            | Some (n, k) => Some (JNumber n, k)
            | None => None
            end
      end
  end
with elements (fuel : nat) (s : string) (acc : list json)
  : option (json * string) :=
  match fuel with
  | O => None
  | S fuel =>
      match value fuel s with
      | None => None
      | Some (v, k) =>
          match skip_ws k with
          | String "," k' => elements fuel (skip_ws k') (acc ++ [v])
          | String "]" k' => Some (JArray (acc ++ [v]), k')
          | _ => None
          end
      end
  end
with members (fuel : nat) (s : string) (acc : list (string * json))
  : option (json * string) :=
  match fuel with
  | O => None
  | S fuel =>
      match s with
      | String c r =>
          if Ascii.eqb c DQUOTE then
            match string_body (String.length r) r with
            | None => None
            | Some (key, k) =>
                match skip_ws k with
                | String ":" k1 =>
                    match value fuel (skip_ws k1) with
                    | None => None
                    | Some (v, k2) =>
                        match skip_ws k2 with
                        | String "," k3 =>
                            members fuel (skip_ws k3) (acc ++ [(key, v)])
                        | String "}" k3 =>
                            Some (JObject (acc ++ [(key, v)]), k3)
                        | _ => None
                        end
                    end
                | _ => None
                end
            end
          else None
      | "" => None
      end
  end.

(** [JSON.parse(text)]: [None] stands for the [SyntaxError] it throws.
    Numbers keep their text. *)
Definition parse (text : string) : option json :=
  match value (2 * String.length text + 2) (skip_ws text) with
  | Some (v, k) =>
      match skip_ws k with
      | "" => Some v
      | _ => None
      end
  | None => None
  end.

End JSON.

(** ** Reading a parsed value the way JavaScript does *)

(** A number literal denotes zero when its digits before the exponent are
    all zeros (rounding to zero of a tiny literal is not modelled). *)
Fixpoint literal_is_zero (s : string) : bool :=
  match s with
  | "" => true
  | String c r =>
      if Ascii.eqb c "e" || Ascii.eqb c "E" then true
      else if JSON.is_digit c then Ascii.eqb c "0" && literal_is_zero r
      else literal_is_zero r
  end.

(** Truthiness of a value; [None] is [undefined]. *)
Definition truthy (v : option json) : bool :=
  match v with
  | None | Some JNull => false
  | Some (JBool b) => b
  | Some (JNumber n) => negb (literal_is_zero n)
  | Some (JString s) => JsString.truthy s
  | Some (JArray _) | Some (JObject _) => true
  end.

(** The own property [key] of an object: the last member of that name. *)
Fixpoint member (key : string) (ms : list (string * json)) : option json :=
  match ms with
  | [] => None
  | (k, v) :: ms' =>
      match member key ms' with
      | Some v' => Some v'
      | None => if String.eqb k key then Some v else None
      end
  end.

(** [v.key] for a value that is neither [null] nor [undefined]: only an
    object has the properties the client reads. *)
Definition prop (key : string) (v : json) : option json :=
  match v with
  | JObject ms => member key ms
  | _ => None
  end.

(** [a || b] and the conditions [if (a)] on optional strings and numbers. *)
Definition truthy_string (a : option string) : bool :=
  match a with
  | Some s => JsString.truthy s
  | None => false
  end.

Definition truthy_number (a : option Z) : bool :=
  match a with
  | Some z => negb (z =? 0)%Z
  | None => false
  end.

Definition or_else {A} (truthy : A -> bool) (a b : A) : A :=
  if truthy a then a else b.

Infix "|||" := (or_else truthy_string) (at level 50, left associativity).

(** ** [path] (POSIX) *)

Module path.

Definition SLASH : ascii := "/"%char.

(** The segments kept so far, last first; [..] removes the last segment
    unless there is none or it is [..] itself, and is then kept only in a
    relative path. *)
Definition step (allowAboveRoot : bool) (res : list string) (seg : string)
  : list string :=
  if String.eqb seg "" || String.eqb seg "." then res
  else if String.eqb seg ".." then
    match res with
    | top :: below =>
        if String.eqb top ".." then
          if allowAboveRoot then seg :: res else res
        else below
    | [] => if allowAboveRoot then [seg] else []
    end
  else seg :: res.

Definition normalizeString (segs : list string) (allowAboveRoot : bool)
  : list string :=
  rev (fold_left (step allowAboveRoot) segs []).

Definition endsWithSlash (p : string) : bool :=
  match String.rev p with
  | String c _ => Ascii.eqb c SLASH
  | "" => false
  end.

(** [path.isAbsolute(p)] *)
Definition isAbsolute (p : string) : bool :=
  match p with
  | String c _ => Ascii.eqb c SLASH
  | "" => false
  end.

(** The segments of the normalized path. *)
Definition segments (p : string) : list string :=
  normalizeString (JsString.split SLASH p) (negb (isAbsolute p)).

Definition normalize (p : string) : string :=
  match p with
  | "" => "."
  | _ =>
      let trailingSeparator := endsWithSlash p in
      let res := String.concat "/" (segments p) in
      match res with
      | "" =>
          if isAbsolute p then "/"
          else if trailingSeparator then "./" else "."
      | _ =>
          let res1 := if trailingSeparator then res +:+ "/" else res in
          if isAbsolute p then "/" +:+ res1 else res1
      end
  end.

(** The non-empty arguments of [join], joined by a slash. *)
Definition joined (args : list string) : string :=
  String.concat "/" (List.filter JsString.truthy args).

(** [path.join(...args)] *)
Definition join (args : list string) : string :=
  match List.filter JsString.truthy args with
  | [] => "."
  | _ => normalize (joined args)
  end.

(** The scan of [dirname], from the end of the path: [r] is the reversed
    path; the first character of the path is not looked at. *)
Fixpoint dirname_scan (r : string) (matchedSlash : bool) : option string :=
  match r with
  | "" => None
  | String c r1 =>
      match r1 with
      | "" => None
      | _ =>
          if Ascii.eqb c SLASH then
            if matchedSlash then dirname_scan r1 true else Some r1
          else dirname_scan r1 false
      end
  end.

Definition dirname (p : string) : string :=
  match p with
  | "" => "."
  | String c _ =>
      let hasRoot := Ascii.eqb c SLASH in
      match dirname_scan (String.rev p) true with
      | None => if hasRoot then "/" else "."
      | Some r =>
          if hasRoot && (String.length r =? 1) then "//" else String.rev r
      end
  end.

End path.

(** ** The interfaces of [types.ts]

    An optional field ([name?: T]) is an [option]; of [AgentState] and
    [FileOutput] only the fields the client reads are kept. *)

Module FileOutput.
Record t : Type := mk {
  filePath : string;
  fileContents : string;
  filePurpose : option string;
}.
End FileOutput.

Inductive Role : Type := user | assistant | system.

Module ChatMessage.
Record t : Type := mk {
  role : Role;
  content : string;
  timestamp : Z;
}.
End ChatMessage.

Module AgentState.
Record t : Type := mk {
  projectName : string;
  templateName : string;
  (** [Record<string, FileOutput>]: a finite map; [Object.entries] is
      [map_to_list], which enumerates the entries once each, in an order
      of its own and not in the order of insertion. *)
  generatedFilesMap : gmap string FileOutput.t;
  currentPhase : Z;
  phasesCounter : Z;
  conversationMessages : list ChatMessage.t;
}.
End AgentState.

Module Tool.
Inductive Status : Type := start | success | error.
Record t : Type := mk {
  name : string;
  status : Status;
  result : option string;
}.
End Tool.

(** The [state] property of a frame holds an [AgentState]
    ([AgentConnectedMessage]) or an object with [messages]
    ([ConversationMessage]). *)
Inductive StateField : Type :=
| AgentStateOf (st : AgentState.t)
| ConversationStateOf (messages : list ChatMessage.t).

(** [WebSocketResponse]: one frame of the channel.  The eight interfaces of
    the union are views of the same object, told apart by [type] alone (the
    casts of the handler check nothing), so a frame is one record with the
    fields of all of them. *)
Module WebSocketResponse.
Record t : Type := mk {
  type : string;
  state : option StateField;
  message : option string;
  (* PhaseMessage *)
  phaseNumber : option Z;
  phaseName : option string;
  filesCount : option Z;
  fixCount : option Z;
  (* FileMessage *)
  filePath : option string;
  filePurpose : option string;
  chunk : option string;
  fileContents : option string;
  size : option Z;
  file : option FileOutput.t;
  (* DeploymentMessage *)
  previewURL : option string;
  previewUrl : option string;
  deployedUrl : option string;
  runId : option string;
  filesDeployed : option Z;
  error : option string;
  subdomain : option string;
  (* CloudflareDeploymentMessage *)
  instanceId : option string;
  deploymentUrl : option string;
  workersUrl : option string;
  (* ConversationMessage *)
  tool : option Tool.t;
  messages : option (list ChatMessage.t);
}.

(** The frame of discriminant [ty] with no other field. *)
Definition bare (ty : string) : t :=
  mk ty None None None None None None None None None None None None
     None None None None None None None None None None None None.
End WebSocketResponse.

(** [WebSocketRequest]: the commands the client sends. *)
Inductive WebSocketRequest : Type :=
| generate_all
| user_suggestion (message : string)
| stop_generation
| resume_generation
| deploy
| preview
| get_conversation_state
| clear_conversation
| get_model_configs.

(** ** What the client prints

    One constructor per message ([console.log], [console.error],
    [process.stdout.write]) or group of lines printed together, holding the
    values the text is built from; colours, icons, banners and the time
    stamp are left out. *)
Inductive Display : Type :=
(* createAgent *)
| ShowStarting
| ShowCreatingAgent
| ShowCreateFailed
| ShowStreamTerminated
| ShowAgentCreated (agentId : option json)
| ShowWebSocket (websocketUrl : option json)
| ShowTemplate (name : option json)
| ShowChunk (chunk : option json)
| ShowParseFailure (line : string)
| ShowFrameParseFailure
(* handleWebSocketMessage *)
| ShowAgentConnected (files : nat) (projectName templateName : string)
    (currentPhase phasesCounter : Z)
| ShowGeneration (type : string) (message : option string)
| ShowPhaseRunning (type : string) (message : option string)
| ShowPhaseDone (type : string) (message : option string)
| ShowFilesCount (n : option Z)
| ShowFixCount (n : option Z)
| ShowPhaseFailed (message : option string)
| ShowFileGenerating (filePath : option string)
| ShowPurpose (filePurpose : option string)
| ShowFileGenerated (filePath : option string) (size : Z)
| ShowDeploymentStarted (production : bool) (message : string)
| ShowSubdomain (subdomain : option string)
| ShowDeploymentCompleted (isProduction : bool) (url : option string)
| ShowFilesDeployed (n : option Z)
| ShowRunId (runId : option string)
| ShowDeploymentFailed (text : option string)
| ShowCloudflareStarted (message instanceId : option string)
| ShowCloudflareCompleted (url instanceId : option string)
| ShowCloudflareError (text instanceId : option string)
| ShowAiResponse (message : string)
| ShowTool (name : string) (status : Tool.Status)
| ShowConversationState (count : nat) (tail : list (Role * string))
| ShowError (text : option string)
| ShowUnknown (type : string)
(* sendMessage, commandLoop *)
| ShowNotConnected
| ShowCommand (command : string)
| ShowSending (message : string)
| ShowLastDeploymentUrl (url : string)
| ShowNoDeploymentUrl
| ShowUnknownCommand
| ShowExiting
| ShowCommandError (message : option string).

(** ** The state of the process and of its surroundings *)

Inductive ReadyState : Type := CONNECTING | OPEN | CLOSING | CLOSED.

Inductive FsOp : Type :=
| Mkdir (dir : string)
| WriteFile (file : string) (data : string).

(** The global variables of [index.ts] ([agentId] to [lastDeploymentUrl]),
    followed by what the process acts on: the files on disk, the calls made
    to the file system, the terminal, the frames sent on the channel; and
    the arguments of every call of [saveFile], kept to count the calls.

    [disk] holds the regular files with their contents.  [fs_ops] lists
    the calls of the file system that succeeded, in order: the directories
    made are there, as [Mkdir].

    [agentId] and [websocketUrl] are declared [string | null]; they are
    assigned from a parsed value through a cast that checks nothing, so they
    hold a JSON value ([None] is [null]). *)
Record World : Type := mkWorld {
  agentId : option json;
  websocketUrl : option json;
  ws : option ReadyState;
  filesMap : gmap string string;
  lastDeploymentUrl : option string;
  disk : gmap string string;
  fs_ops : list FsOp;
  console : list Display;
  sent : list WebSocketRequest;
  saveFile_calls : list (option string * option string);
}.

(** The state at the start of [main]. *)
Definition initial : World :=
  mkWorld None None None ∅ None ∅ [] [] [] [].

(** The values of the five global variables. *)
Definition globals (w : World)
  : option json * option json * option ReadyState * gmap string string
    * option string :=
  (agentId w, websocketUrl w, ws w, filesMap w, lastDeploymentUrl w).

(** What the environment supplies: the output root ([OUTPUT_DIR] of the
    process environment, [./output] by default), the runtime's [JSON.parse],
    and whether [mkdir] of a directory and [writeFile] of a file succeed.
    A [writeFile] that fails could not open the file ([None]), or opened
    it, which empties it, and failed after it wrote so many bytes of the
    data. *)
Class Runtime : Type := {
  OUTPUT_DIR : string;
  JSON_parse : string -> option json;
  mkdir_ok : string -> bool;
  writeFile_ok : string -> bool;
  writeFile_written : string -> option nat;
}.

(** ** Computations: state, and exceptions that keep the state *)

Inductive Exn : Type :=
| SyntaxError
| TypeError
| IOError (target : string)
| HttpError (status : Z) (text : string)
| Error (message : string).

Inductive Result (A : Type) : Type :=
| Ok (a : A)
| Throw (e : Exn).
Arguments Ok {A} a.
Arguments Throw {A} e.

Definition M (A : Type) : Type := World -> Result A * World.

Definition ret {A} (a : A) : M A := fun w => (Ok a, w).

Definition bind {A B} (c : M A) (k : A -> M B) : M B :=
  fun w =>
    match c w with
    | (Ok a, w') => k a w'
    | (Throw e, w') => (Throw e, w')
    end.

Definition throw {A} (e : Exn) : M A := fun w => (Throw e, w).

(** [try { c } catch (err) { h err }] *)
Definition try_catch {A} (c : M A) (h : Exn -> M A) : M A :=
  fun w =>
    match c w with
    | (Ok a, w') => (Ok a, w')
    | (Throw e, w') => h e w'
    end.

Definition get : M World := fun w => (Ok w, w).

Definition modify (f : World -> World) : M unit := fun w => (Ok tt, f w).

Declare Scope M_scope.
Delimit Scope M_scope with M.
Notation "x <- c ;; k" := (bind c (fun x => k))
  (at level 100, c at next level, right associativity, only parsing)
  : M_scope.
Notation "c ;; k" := (bind c (fun _ => k))
  (at level 100, right associativity, only parsing) : M_scope.
Local Open Scope M_scope.

(** [for (const x of l) { body x }] without [break]. *)
Fixpoint for_of {A} (l : list A) (body : A -> M unit) : M unit :=
  match l with
  | [] => ret tt
  | x :: l' => body x ;; for_of l' body
  end.

(** The final state of a computation. *)
Definition exec {A} (c : M A) (w : World) : World := snd (c w).

(** Assignments to the globals and the primitive effects. *)
Definition set_agentId (v : option json) (w : World) : World :=
  mkWorld v (websocketUrl w) (ws w) (filesMap w) (lastDeploymentUrl w)
    (disk w) (fs_ops w) (console w) (sent w) (saveFile_calls w).

Definition set_websocketUrl (v : option json) (w : World) : World :=
  mkWorld (agentId w) v (ws w) (filesMap w) (lastDeploymentUrl w)
    (disk w) (fs_ops w) (console w) (sent w) (saveFile_calls w).

Definition set_filesMap (m : gmap string string) (w : World) : World :=
  mkWorld (agentId w) (websocketUrl w) (ws w) m (lastDeploymentUrl w)
    (disk w) (fs_ops w) (console w) (sent w) (saveFile_calls w).

Definition set_lastDeploymentUrl (u : option string) (w : World) : World :=
  mkWorld (agentId w) (websocketUrl w) (ws w) (filesMap w) u
    (disk w) (fs_ops w) (console w) (sent w) (saveFile_calls w).

Definition show (d : Display) : M unit :=
  modify (fun w =>
    mkWorld (agentId w) (websocketUrl w) (ws w) (filesMap w)
      (lastDeploymentUrl w) (disk w) (fs_ops w) (console w ++ [d]) (sent w)
      (saveFile_calls w)).

Definition note_saveFile (filePath contents : option string) : M unit :=
  modify (fun w =>
    mkWorld (agentId w) (websocketUrl w) (ws w) (filesMap w)
      (lastDeploymentUrl w) (disk w) (fs_ops w) (console w) (sent w)
      (saveFile_calls w ++ [(filePath, contents)])).

(** ** [index.ts] *)

(** What ends a body: the read after its last chunk reports [done], or
    rejects.  A body that never ends keeps the caller waiting for ever; it
    is no value of [Body], and the state it leaves after some of its chunks
    is the one [readLoop] gives for them. *)
Inductive Ending : Type :=
| Done
| ReadRejected (e : Exn).

(** The body of an answer, as [reader.read()] delivers it: the chunks,
    decoded, and what ends them. *)
Record Body : Type := mkBody {
  chunks : list string;
  ending : Ending;
}.

(** The answer of [fetch]: [ok], [status], what [response.text()] settles
    to, and the body when there is one. *)
Record Response : Type := mkResponse {
  ok : bool;
  status : Z;
  text : Result string;
  body : option Body;
}.

(** What [await fetch(...)] gives: a rejection, or an answer. *)
Inductive Fetch : Type :=
| FetchRejected (e : Exn)
| Answered (response : Response).

Section Client.
Context `{rt : Runtime}.

(** [fs/promises]: [mkdir(dir, {recursive: true})] and
    [writeFile(file, data, 'utf-8')]. *)
Definition mkdir (dir : string) : M unit :=
  if mkdir_ok dir then
    modify (fun w =>
      mkWorld (agentId w) (websocketUrl w) (ws w) (filesMap w)
        (lastDeploymentUrl w) (disk w) (fs_ops w ++ [Mkdir dir])
        (console w) (sent w) (saveFile_calls w))
  else throw (IOError dir).

Definition writeFile (file : string) (data : option string) : M unit :=
  match data with
  | None => throw TypeError
  | Some contents =>
      if writeFile_ok file then
        modify (fun w =>
          mkWorld (agentId w) (websocketUrl w) (ws w) (filesMap w)
            (lastDeploymentUrl w) (<[file := contents]> (disk w))
            (fs_ops w ++ [WriteFile file contents])
            (console w) (sent w) (saveFile_calls w))
      else
        match writeFile_written file with
        | None => throw (IOError file)
        | Some n =>
            modify (fun w =>
              mkWorld (agentId w) (websocketUrl w) (ws w) (filesMap w)
                (lastDeploymentUrl w)
                (<[file := JsString.take n contents]> (disk w))
                (fs_ops w) (console w) (sent w) (saveFile_calls w)) ;;
            throw (IOError file)
        end
  end.

(** [saveFile(filePath, contents)].  Both parameters are declared
    [string]; the caller's non-null assertions let [undefined] ([None])
    through, which [path.join] and [writeFile] reject. *)
Definition saveFile (filePath contents : option string) : M unit :=
  note_saveFile filePath contents ;;
  w <- get ;;
  if negb (truthy (agentId w)) then ret tt
  else
    match agentId w, filePath with
    | Some (JString id), Some p =>
        let outputPath := path.join [OUTPUT_DIR; id; p] in
        let dir := path.dirname outputPath in
        mkdir dir ;;
        writeFile outputPath contents ;;
        match contents with
        | Some c => modify (fun w => set_filesMap (<[p := c]> (filesMap w)) w)
        | None => throw TypeError
        end
    | _, _ => throw TypeError
    end.

(** The body of the loop over the lines of one read (lines 106 to 132);
    the result tells whether the loop is left ([break]). *)
Definition processLine (line : string) : M bool :=
  if negb (JsString.truthy (JsString.trim line)) then ret false
  else if String.eqb line "terminate" then
    show ShowStreamTerminated ;; ret true
  else
    try_catch
      (match JSON_parse line with
       | None => throw SyntaxError
       | Some JNull => throw TypeError
       | Some data =>
           if truthy (prop "agentId" data)
              && truthy (prop "websocketUrl" data)
           then
             modify (set_agentId (prop "agentId" data)) ;;
             modify (set_websocketUrl (prop "websocketUrl" data)) ;;
             w <- get ;;
             show (ShowAgentCreated (agentId w)) ;;
             show (ShowWebSocket (websocketUrl w)) ;;
             match prop "template" data with
             | None | Some JNull => throw TypeError
             | Some template => show (ShowTemplate (prop "name" template))
             end
           else if truthy (prop "chunk" data) then
             show (ShowChunk (prop "chunk" data))
           else ret tt
       end)
      (fun _ => show (ShowParseFailure line)) ;;
    ret false.

(** [for (const line of lines) { ... }], left at the first [break]. *)
Fixpoint processLines (lines : list string) : M unit :=
  match lines with
  | [] => ret tt
  | line :: rest =>
      stop <- processLine line ;;
      if stop then ret tt else processLines rest
  end.

(** The [while (true)] loop of [createAgent] (lines 96 to 134), for the
    chunks read: what ends the loop, [done] or a rejected read, comes
    after them, in [lastRead].  [reads] are the texts
    [decoder.decode(value, {stream: true})] returns for the chunks
    [reader.read()] delivers: wherever the body is cut, they add up to its
    decoded text (the decoder holds back an unfinished character, which has
    no newline). *)
Fixpoint readLoop (buffer : string) (reads : list string) : M unit :=
  match reads with
  | [] => ret tt
  | value :: later =>
      let buffer1 := buffer +:+ value in
      let lines := JsString.split LF buffer1 in
      let buffer2 := default "" (fst (JsString.pop lines)) in
      processLines (snd (JsString.pop lines)) ;;
      readLoop buffer2 later
  end.

(** The [reader.read()] that follows the last chunk: [done] leaves the
    loop, a rejection is thrown. *)
Definition lastRead (ending : Ending) : M unit :=
  match ending with
  | Done => ret tt
  | ReadRejected e => throw e
  end.

(** [createAgent(query, agentMode)], given what its request settles to. *)
Definition createAgent (fetched : Fetch) : M unit :=
  show ShowStarting ;;
  show ShowCreatingAgent ;;
  try_catch
    (match fetched with
     | FetchRejected e => throw e
     | Answered response =>
         if negb (ok response) then
           match text response with
           | Ok errorText => throw (HttpError (status response) errorText)
           | Throw e => throw e
           end
         else
           match body response with
           | None => throw (Error "No response body")
           | Some stream =>
               readLoop "" (chunks stream) ;; lastRead (ending stream)
           end
     end)
    (fun error => show ShowCreateFailed ;; throw error).


(** [l.slice(-n)]: the last [n] elements. *)
Definition slice_last {A} (n : nat) (l : list A) : list A :=
  skipn (length l - n) l.

Definition one_of (s : string) (l : list string) : bool :=
  existsb (String.eqb s) l.

(** [handleWebSocketMessage(message)]: the [switch] on [message.type]. *)
Definition handleWebSocketMessage (message : WebSocketResponse.t) : M unit :=
  let msg := message in
  let ty := WebSocketResponse.type message in
  if String.eqb ty "agent_connected" then
    match WebSocketResponse.state msg with
    | Some (AgentStateOf st) =>
        let entries := map_to_list (AgentState.generatedFilesMap st) in
        show (ShowAgentConnected (length entries)
                (AgentState.projectName st) (AgentState.templateName st)
                (AgentState.currentPhase st) (AgentState.phasesCounter st)) ;;
        for_of entries (fun entry =>
          saveFile (Some (fst entry))
                   (Some (FileOutput.fileContents (snd entry))))
    | _ => throw TypeError
    end
  else if one_of ty ["generation_started"; "generation_complete";
                     "generation_stopped"; "generation_resumed"] then
    show (ShowGeneration ty (WebSocketResponse.message msg))
  else if one_of ty ["phase_generating"; "phase_implementing";
                     "phase_validating"] then
    show (ShowPhaseRunning ty (WebSocketResponse.message msg))
  else if one_of ty ["phase_generated"; "phase_implemented";
                     "phase_validated"] then
    show (ShowPhaseDone ty (WebSocketResponse.message msg)) ;;
    (if truthy_number (WebSocketResponse.filesCount msg)
     then show (ShowFilesCount (WebSocketResponse.filesCount msg))
     else ret tt) ;;
    (if truthy_number (WebSocketResponse.fixCount msg)
     then show (ShowFixCount (WebSocketResponse.fixCount msg))
     else ret tt)
  else if String.eqb ty "phase_failed" then
    show (ShowPhaseFailed (WebSocketResponse.message msg))
  else if String.eqb ty "file_generating" then
    show (ShowFileGenerating (WebSocketResponse.filePath msg)) ;;
    (if truthy_string (WebSocketResponse.filePurpose msg)
     then show (ShowPurpose (WebSocketResponse.filePurpose msg))
     else ret tt)
  else if String.eqb ty "file_chunk_generated" then
    ret tt
  else if String.eqb ty "file_generated" then
    let file :=
      match WebSocketResponse.file msg with
      | Some f =>
          (Some (FileOutput.filePath f), Some (FileOutput.fileContents f))
      | None =>
          (WebSocketResponse.filePath msg, WebSocketResponse.fileContents msg)
      end in
    saveFile (fst file) (snd file) ;;
    size <- (if truthy_number (WebSocketResponse.size msg)
             then ret (default 0%Z (WebSocketResponse.size msg))
             else match snd file with
                  | Some c => ret (Z.of_nat (JsString.length c))
                  | None => throw TypeError
                  end) ;;
    show (ShowFileGenerated (fst file) size)
  else if String.eqb ty "deployment_started" then
    show (ShowDeploymentStarted
            (truthy_string (WebSocketResponse.subdomain msg))
            (default ""
               (WebSocketResponse.message msg
                ||| Some "Starting deployment..."))) ;;
    (if truthy_string (WebSocketResponse.subdomain msg)
     then show (ShowSubdomain (WebSocketResponse.subdomain msg))
     else ret tt)
  else if String.eqb ty "deployment_completed" then
    let url := WebSocketResponse.deployedUrl msg
               ||| WebSocketResponse.previewURL msg
               ||| WebSocketResponse.previewUrl msg in
    let isProduction :=
      match url with
      | Some u =>
          JsString.includes u "workers.dev"
          || JsString.includes u "anex6site.com"
      | None => false
      end in
    modify (set_lastDeploymentUrl (url ||| None)) ;;
    show (ShowDeploymentCompleted isProduction url) ;;
    (if truthy_number (WebSocketResponse.filesDeployed msg)
     then show (ShowFilesDeployed (WebSocketResponse.filesDeployed msg))
     else ret tt) ;;
    (if truthy_string (WebSocketResponse.runId msg)
     then show (ShowRunId (WebSocketResponse.runId msg))
     else ret tt)
  else if String.eqb ty "deployment_failed" then
    show (ShowDeploymentFailed
            (WebSocketResponse.error msg ||| WebSocketResponse.message msg))
  else if String.eqb ty "cloudflare_deployment_started" then
    show (ShowCloudflareStarted (WebSocketResponse.message msg)
            (WebSocketResponse.instanceId msg))
  else if String.eqb ty "cloudflare_deployment_completed" then
    let url := WebSocketResponse.deploymentUrl msg
               ||| WebSocketResponse.workersUrl msg in
    modify (set_lastDeploymentUrl (url ||| None)) ;;
    show (ShowCloudflareCompleted url (WebSocketResponse.instanceId msg))
  else if String.eqb ty "cloudflare_deployment_error" then
    show (ShowCloudflareError
            (WebSocketResponse.error msg ||| WebSocketResponse.message msg)
            (WebSocketResponse.instanceId msg))
  else if String.eqb ty "conversation_response" then
    show (ShowAiResponse
            (default "" (WebSocketResponse.message msg ||| Some ""))) ;;
    match WebSocketResponse.tool msg with
    | Some t => show (ShowTool (Tool.name t) (Tool.status t))
    | None => ret tt
    end
  else if String.eqb ty "conversation_state" then
    let messages :=
      match WebSocketResponse.messages msg with
      | Some l => l
      | None =>
          match WebSocketResponse.state msg with
          | Some (ConversationStateOf l) => l
          | _ => []
          end
      end in
    show (ShowConversationState (length messages)
            (List.map
               (fun m => (ChatMessage.role m,
                          JsString.substring0 80 (ChatMessage.content m)))
               (slice_last 3 messages)))
  else if one_of ty ["error"; "rate_limit_error"] then
    show (ShowError
            (WebSocketResponse.error msg ||| WebSocketResponse.message msg))
  else
    show (ShowUnknown ty).

(** The listener of [ws.on('message', ...)].  [parsed] is the frame cast
    from [JSON.parse(data.toString())], [None] when that throws.  The
    handler is not awaited: what it throws is a rejected promise that
    nothing handles; the listener goes on from the state reached.  Frames
    are taken one after the other, a handler never overlapping the next
    one. *)
Definition on_message (parsed : option WebSocketResponse.t) : M unit :=
  match parsed with
  | None => show ShowFrameParseFailure
  | Some message =>
      try_catch (handleWebSocketMessage message) (fun _ => ret tt)
  end.

(** The frames of a channel, in the order of their arrival. *)
Definition receive (frames : list WebSocketResponse.t) : M unit :=
  for_of frames (fun message => on_message (Some message)).

(** [sendMessage(message)] *)
Definition sendMessage (message : WebSocketRequest) : M unit :=
  w <- get ;;
  match ws w with
  | Some OPEN =>
      modify (fun w =>
        mkWorld (agentId w) (websocketUrl w) (ws w) (filesMap w)
          (lastDeploymentUrl w) (disk w) (fs_ops w) (console w)
          (sent w ++ [message]) (saveFile_calls w))
  | _ => show ShowNotConnected
  end.

(** [ws?.close()] *)
Definition ws_close : M unit :=
  modify (fun w =>
    mkWorld (agentId w) (websocketUrl w)
      (match ws w with Some _ => Some CLOSING | None => None end)
      (filesMap w) (lastDeploymentUrl w) (disk w) (fs_ops w) (console w)
      (sent w) (saveFile_calls w)).

(** One turn of the [while (true)] of [commandLoop] on the line the user
    typed; [true] when the process exits. *)
Definition commandLoop_turn (command : string) : M bool :=
  let trimmed := JsString.trim command in
  if negb (JsString.truthy trimmed) then ret false
  else if String.eqb trimmed "/exit" then
    show (ShowCommand trimmed) ;; ws_close ;; ret true
  else if String.eqb trimmed "/generate" then
    show (ShowCommand trimmed) ;; sendMessage generate_all ;; ret false
  else if String.eqb trimmed "/preview" then
    show (ShowCommand trimmed) ;; sendMessage preview ;; ret false
  else if String.eqb trimmed "/deploy" then
    show (ShowCommand trimmed) ;; sendMessage deploy ;; ret false
  else if String.eqb trimmed "/url" then
    w <- get ;;
    (if truthy_string (lastDeploymentUrl w)
     then show (ShowLastDeploymentUrl (default "" (lastDeploymentUrl w)))
     else show ShowNoDeploymentUrl) ;;
    ret false
  else if String.eqb trimmed "/stop" then
    show (ShowCommand trimmed) ;; sendMessage stop_generation ;; ret false
  else if String.eqb trimmed "/state" then
    show (ShowCommand trimmed) ;; sendMessage get_conversation_state ;;
    ret false
  else if String.eqb trimmed "/clear" then
    show (ShowCommand trimmed) ;; sendMessage clear_conversation ;;
    ret false
  else if JsString.startsWith trimmed "/chat " then
    let message :=
      JsString.trim
        (String.substring 6 (String.length trimmed) trimmed) in
    (if JsString.truthy message
     then show (ShowSending message) ;; sendMessage (user_suggestion message)
     else ret tt) ;;
    ret false
  else
    show ShowUnknownCommand ;; ret false.

End Client.

(** The runtime of the examples: the default output root, the parser
    above, and a file system that accepts every write. *)
Definition node : Runtime := {|
  OUTPUT_DIR := "./output";
  JSON_parse := JSON.parse;
  mkdir_ok := fun _ => true;
  writeFile_ok := fun _ => true;
  writeFile_written := fun _ => None;
|}.

(** ** Vocabulary of the properties *)

(** [has_char c s]: the character [c] occurs in [s]. *)
Fixpoint has_char (c : ascii) (s : string) : bool :=
  match s with
  | "" => false
  | String x r => Ascii.eqb x c || has_char c r
  end.

(** A text cut at its newlines: the lines that are complete, and the
    unterminated rest. *)
Definition complete_lines (text : string) : list string :=
  removelast (JsString.split LF text).

Definition pending (text : string) : string :=
  default "" (last (JsString.split LF text)).

(** [glue a l] puts [a] in front of the first element of [l]. *)
Definition glue (a : string) (l : list string) : list string :=
  match l with
  | [] => [a]
  | x :: xs => (a +:+ x) :: xs
  end.

(** The text a list of reads delivers. *)
Definition delivered (reads : list string) : string :=
  fold_right String.append "" reads.

(** A line the reader skips. *)
Definition blank (line : string) : bool :=
  negb (JsString.truthy (JsString.trim line)).

(** Nothing but blank lines follows a sentinel line. *)
Fixpoint sentinel_last (lines : list string) : bool :=
  match lines with
  | [] => true
  | line :: rest =>
      (if negb (blank line) && String.eqb line "terminate"
       then forallb blank rest else true)
      && sentinel_last rest
  end.


(** The first field of a chain that holds a non-empty string. *)
Fixpoint first_non_empty (fields : list (option string)) : option string :=
  match fields with
  | [] => None
  | f :: rest => if truthy_string f then f else first_non_empty rest
  end.

(** The completion frames of the two deployment lineages, and the fields
    each lineage looks up, in order. *)
Definition is_completion (msg : WebSocketResponse.t) : bool :=
  one_of (WebSocketResponse.type msg)
    ["deployment_completed"; "cloudflare_deployment_completed"].

Definition url_chain (msg : WebSocketResponse.t) : list (option string) :=
  if String.eqb (WebSocketResponse.type msg) "deployment_completed" then
    [WebSocketResponse.deployedUrl msg; WebSocketResponse.previewURL msg;
     WebSocketResponse.previewUrl msg]
  else if String.eqb (WebSocketResponse.type msg)
            "cloudflare_deployment_completed" then
    [WebSocketResponse.deploymentUrl msg; WebSocketResponse.workersUrl msg]
  else [].

(** The URLs of the completion banners among the lines printed. *)
Definition shown_urls (out : list Display) : list (option string) :=
  omap (fun d =>
          match d with
          | ShowDeploymentCompleted _ url => Some url
          | ShowCloudflareCompleted url _ => Some url
          | _ => None
          end) out.

(** The discriminants [handleWebSocketMessage] has a case for. *)
Definition recognized : list string :=
  ["agent_connected";
   "generation_started"; "generation_complete"; "generation_stopped";
   "generation_resumed";
   "phase_generating"; "phase_implementing"; "phase_validating";
   "phase_generated"; "phase_implemented"; "phase_validated";
   "phase_failed";
   "file_generating"; "file_chunk_generated"; "file_generated";
   "deployment_started"; "deployment_completed"; "deployment_failed";
   "cloudflare_deployment_started"; "cloudflare_deployment_completed";
   "cloudflare_deployment_error";
   "conversation_response"; "conversation_state";
   "error"; "rate_limit_error"].

(** The phase-progress frames. *)
Definition is_phase (msg : WebSocketResponse.t) : bool :=
  one_of (WebSocketResponse.type msg)
    ["phase_generating"; "phase_implementing"; "phase_validating";
     "phase_generated"; "phase_implemented"; "phase_validated";
     "phase_failed"].

(** Where [saveFile] writes the file of relative path [p] in the session
    [id], and the state after it did. *)
Definition output_path `{Runtime} (id p : string) : string :=
  path.join [OUTPUT_DIR; id; p].

Definition after_saveFile `{Runtime} (id p c : string) (w : World) : World :=
  mkWorld (agentId w) (websocketUrl w) (ws w) (<[p := c]> (filesMap w))
    (lastDeploymentUrl w) (<[output_path id p := c]> (disk w))
    (fs_ops w ++ [Mkdir (path.dirname (output_path id p));
                  WriteFile (output_path id p) c])
    (console w) (sent w) (saveFile_calls w ++ [(Some p, Some c)]).

(** [print out w]: the state [w] after the lines [out] were printed. *)
Definition print (out : list Display) (w : World) : World :=
  mkWorld (agentId w) (websocketUrl w) (ws w) (filesMap w)
    (lastDeploymentUrl w) (disk w) (fs_ops w) (console w ++ out) (sent w)
    (saveFile_calls w).

(** A segment that normalization keeps as it is. *)
Definition plain_segment (seg : string) : bool :=
  negb (String.eqb seg "" || String.eqb seg "." || String.eqb seg "..").

(** The path and contents a [file_generated] frame carries: those of its
    inline [file], or else its own [filePath] and [fileContents]. *)
Definition generated_file (msg : WebSocketResponse.t)
  : option (string * string) :=
  match WebSocketResponse.file msg with
  | Some f => Some (FileOutput.filePath f, FileOutput.fileContents f)
  | None =>
      match WebSocketResponse.filePath msg,
            WebSocketResponse.fileContents msg with
      | Some p, Some c => Some (p, c)
      | _, _ => None
      end
  end.

(** The call [saveFile] makes for an entry of a snapshot, and the entry as
    the file map holds it. *)
Definition entry_call (entry : string * FileOutput.t)
  : option string * option string :=
  (Some entry.1, Some (FileOutput.fileContents entry.2)).

Definition entry_contents (entry : string * FileOutput.t) : string * string :=
  (entry.1, FileOutput.fileContents entry.2).

(** What a computation leaves alone when it only prints and sets the
    latest URL: every global but [lastDeploymentUrl], the disk, the calls
    of the file system and of [saveFile], the frames sent. *)
Definition session_data (w : World) :=
  (agentId w, websocketUrl w, ws w, filesMap w, disk w, fs_ops w, sent w,
   saveFile_calls w).

(** ** Data of the examples *)

(** The first line of a creation stream: the session and its channel. *)
Definition session_line : string :=
  "{" +:+ quoted "agentId" +:+ ":" +:+ quoted "a1" +:+ ","
  +:+ quoted "websocketUrl" +:+ ":" +:+ quoted "ws://x" +:+ ","
  +:+ quoted "template" +:+ ":{" +:+ quoted "name" +:+ ":" +:+ quoted "t"
  +:+ "," +:+ quoted "files" +:+ ":[]}}".

(** A line carrying a piece of the plan. *)
Definition chunk_line (piece : string) : string :=
  "{" +:+ quoted "chunk" +:+ ":" +:+ quoted piece +:+ "}".

(** An answer of status 200 whose body arrives as [reads], and ends. *)
Definition answer (reads : list string) : Fetch :=
  Answered (mkResponse true 200 (Ok "") (Some (mkBody reads Done))).

(** A state with the session established, as [main] requires before it
    connects the channel. *)
Definition established : World :=
  mkWorld (Some (JString "a1")) (Some (JString "ws://x")) (Some OPEN) ∅ None
    ∅ [] [] [] [].

(** Frames, by the fields they carry. *)
Definition preview_completed (deployedUrl previewURL previewUrl : option string)
  : WebSocketResponse.t :=
  WebSocketResponse.mk "deployment_completed" None None None None None None
    None None None None None None previewURL previewUrl deployedUrl None None
    None None None None None None None.

Definition production_completed (deploymentUrl workersUrl : option string)
  : WebSocketResponse.t :=
  WebSocketResponse.mk "cloudflare_deployment_completed" None
    (Some "Deployed") None None None None None None None None None None None
    None None None None None None (Some "i-1") deploymentUrl workersUrl None
    None.

Definition phase_frame (type : string) (phaseNumber : Z)
  : WebSocketResponse.t :=
  WebSocketResponse.mk type None (Some "phase") (Some phaseNumber)
    (Some "Setup") None None None None None None None None None None None
    None None None None None None None None None.

Definition file_frame (type : string)
    (filePath chunk fileContents : option string)
    (file : option FileOutput.t) : WebSocketResponse.t :=
  WebSocketResponse.mk type None None None None None None filePath None chunk
    fileContents None file None None None None None None None None None None
    None None.

Definition agent_connected_frame (files : gmap string FileOutput.t)
  : WebSocketResponse.t :=
  WebSocketResponse.mk "agent_connected"
    (Some (AgentStateOf (AgentState.mk "todo" "vite" files 0 0 [])))
    None None None None None None None None None None None None None None
    None None None None None None None None None.

(** The same session after a deployment stored its URL. *)
Definition deployed_before : World :=
  set_lastDeploymentUrl (Some "https://old.example") established.

(** ** [formatFileSize] *)

(** The integers a number holds exactly, next to their neighbours. *)
Definition safe_integer (n : Z) : bool := (Z.abs n <? 2 ^ 53)%Z.

(** [(num / den).toFixed(1)] for a safe integer [num] that is not negative
    and [den] 1024 or its square: the quotient is exact and far below
    1e21, where [toFixed] takes the number of tenths nearest to it, the
    larger one when two are as near. *)
Definition tenths (num den : Z) : Z := ((10 * num + den / 2) / den)%Z.

Definition fixed1 (t : Z) : string :=
  pretty (t / 10)%Z +:+ "." +:+ pretty (t mod 10)%Z.

Definition toFixed1 (num den : Z) : string := fixed1 (tenths num den).

(** [formatFileSize(bytes)] for a number of bytes that is a safe integer.
    The other numbers (fractions, integers from 2^53, which the quotient or
    [toFixed] may round or write with an exponent, [NaN], the infinities)
    are not followed here: [None]. *)
Definition formatFileSize (bytes : Z) : option string :=
  if negb (safe_integer bytes) then None
  else if (bytes <? 1024)%Z then Some (pretty bytes +:+ " B")
  else if (bytes <? 1024 * 1024)%Z
  then Some (toFixed1 bytes 1024 +:+ " KB")
  else Some (toFixed1 bytes (1024 * 1024) +:+ " MB").

(** ** More vocabulary *)

(** What the creation stream has no business with: everything but the
    identity of the session and the terminal. *)
Definition beside_identity (w : World) :=
  (ws w, filesMap w, lastDeploymentUrl w, disk w, fs_ops w, sent w,
   saveFile_calls w).

(** The identity of the session is unset, or set whole. *)
Definition identity_whole (w : World) : Prop :=
  (agentId w = None /\ websocketUrl w = None)
  \/ (truthy (agentId w) = true /\ truthy (websocketUrl w) = true).

(** What no inbound frame touches: the identity of the session, the
    channel, the frames sent. *)
Definition connection (w : World) :=
  (agentId w, websocketUrl w, ws w, sent w).

(** The frames that do more than print. *)
Definition acts (msg : WebSocketResponse.t) : bool :=
  one_of (WebSocketResponse.type msg)
    ["agent_connected"; "file_generated"; "deployment_completed";
     "cloudflare_deployment_completed"].

(** The messages a [conversation_state] frame brings: [messages], or else
    those of [state]. *)
Definition conversation_messages (msg : WebSocketResponse.t)
  : list ChatMessage.t :=
  match WebSocketResponse.messages msg with
  | Some l => l
  | None =>
      match WebSocketResponse.state msg with
      | Some (ConversationStateOf l) => l
      | _ => []
      end
  end.

(** [grows w w']: from [w] to [w'] the connection is the same, no file
    left the file map or the disk, the latest URL is the same or not the
    empty string, and without a session nothing was written. *)
Definition grows (w w' : World) : Prop :=
  connection w' = connection w
  /\ dom (filesMap w) ⊆ dom (filesMap w')
  /\ dom (disk w) ⊆ dom (disk w')
  /\ (lastDeploymentUrl w' = lastDeploymentUrl w
      \/ lastDeploymentUrl w' <> Some "")
  /\ (truthy (agentId w) = false ->
      filesMap w' = filesMap w /\ disk w' = disk w /\ fs_ops w' = fs_ops w).

(** A computation is tame when the state grows along it, wherever it
    starts and whether it returns or throws. *)
Definition tame {A} (c : M A) : Prop := forall w, grows w (exec c w).

(** A runtime whose file system opens no file for writing. *)
Definition read_only : Runtime := {|
  OUTPUT_DIR := "./output";
  JSON_parse := JSON.parse;
  mkdir_ok := fun _ => true;
  writeFile_ok := fun _ => false;
  writeFile_written := fun _ => None;
|}.

(** A runtime whose disk is full: a file is opened, and emptied, and the
    write fails after three bytes. *)
Definition full_disk : Runtime := {|
  OUTPUT_DIR := "./output";
  JSON_parse := JSON.parse;
  mkdir_ok := fun _ => true;
  writeFile_ok := fun _ => false;
  writeFile_written := fun _ => Some 3;
|}.

(** ** The request of [createAgent] *)

(** What makes [createAgent] fail, if anything does: the request itself,
    an answer that is not ok (the error built from its text, or what
    reading the text throws), an answer without a body, a read of the body
    that rejects. *)
Definition failure (fetched : Fetch) : option Exn :=
  match fetched with
  | FetchRejected e => Some e
  | Answered response =>
      if negb (ok response) then
        match text response with
        | Ok errorText => Some (HttpError (status response) errorText)
        | Throw e => Some e
        end
      else
        match body response with
        | None => Some (Error "No response body")
        | Some stream =>
            match ending stream with
            | Done => None
            | ReadRejected e => Some e
            end
        end
  end.

(** The chunks [createAgent] reads: those of the body of an answer that
    is ok. *)
Definition chunks_read (fetched : Fetch) : list string :=
  match fetched with
  | FetchRejected _ => []
  | Answered response =>
      if negb (ok response) then []
      else match body response with
           | None => []
           | Some stream => chunks stream
           end
  end.

(** The file an entry of a snapshot is written to, with its contents. *)
Definition entry_file `{Runtime} (sid : string)
    (entry : string * FileOutput.t) : string * string :=
  (output_path sid entry.1, FileOutput.fileContents entry.2).


(** ** The command loop *)

(** What no command touches: the identity of the session, the files, the
    latest URL. *)
Definition beside_channel (w : World) :=
  (agentId w, websocketUrl w, filesMap w, lastDeploymentUrl w, disk w,
   fs_ops w, saveFile_calls w).

(** The line that ends the process. *)
Definition is_exit (command : string) : bool :=
  String.eqb (JsString.trim command) "/exit".

(** What [await input(...)] gives: the line typed, or a rejection, with
    the message of the [Error] thrown ([None] when what is thrown is no
    [Error]). *)
Inductive Prompted : Type :=
| Typed (command : string)
| PromptRejected (message : option string).

(** [error instanceof Error && error.message.includes('User force closed')] *)
Definition force_closed (message : option string) : bool :=
  match message with
  | Some m => JsString.includes m "User force closed"
  | None => false
  end.

(** What ends the process: the line [/exit], the prompt closed by force. *)
Definition ends_loop (prompted : Prompted) : bool :=
  match prompted with
  | Typed command => is_exit command
  | PromptRejected message => force_closed message
  end.

(** One pass of the [while (true)] of [commandLoop] (lines 415 to 471):
    the [try] around the prompt and the turn, and its [catch].  The turn
    itself throws nothing, so the [catch] is that of the prompt. *)
Definition commandLoop_pass (prompted : Prompted) : M bool :=
  match prompted with
  | Typed command => commandLoop_turn command
  | PromptRejected message =>
      if force_closed message then
        show ShowExiting ;; ws_close ;; ret true
      else
        show (ShowCommandError message) ;; ret false
  end.

(** [commandLoop()] on what the prompts give, one pass each until a pass
    exits the process: [true] when one did, [false] when the list ran out
    with the loop waiting for the next. *)
Fixpoint commandLoop (inputs : list Prompted) : M bool :=
  match inputs with
  | [] => ret false
  | prompted :: rest =>
      exited <- commandLoop_pass prompted ;;
      if exited : bool then ret true else commandLoop rest
  end.

(** ** More data of the examples *)

(** A [conversation_state] frame with its messages at the top level. *)
Definition conversation_frame (messages : list ChatMessage.t)
  : WebSocketResponse.t :=
  WebSocketResponse.mk "conversation_state" None None None None None None
    None None None None None None None None None None None None None None
    None None None (Some messages).

(** [copies n s]: [s] written [n] times. *)
Fixpoint copies (n : nat) (s : string) : string :=
  match n with
  | 0 => ""
  | S n' => s +:+ copies n' s
  end.

(** The letter e with an acute accent (U+00E9, two bytes) and the grinning
    face (U+1F600, four bytes, a surrogate pair). *)
Definition e_acute : string := String "195" (String "169" "").

Definition grinning : string :=
  String "240" (String "159" (String "152" (String "128" ""))).

(** Four messages of a conversation: the third has fifty code units in a
    hundred bytes, the last has its eightieth code unit in the middle of a
    character. *)
Definition talk : list ChatMessage.t :=
  [ChatMessage.mk user "a todo app" 1;
   ChatMessage.mk assistant "which framework?" 2;
   ChatMessage.mk user (copies 50 e_acute) 3;
   ChatMessage.mk assistant (copies 79 "a" +:+ grinning +:+ "!") 4].
(** * Properties *)

(** ** Running a computation *)

Lemma bind_unfold {A B} (c : M A) (k : A -> M B) w :
  bind c k w
  = match c w with
    | (Ok a, w') => k a w'
    | (Throw e, w') => (Throw e, w')
    end.
Proof. reflexivity. Qed.

Lemma show_print d w : show d w = (Ok tt, print [d] w).
Proof. reflexivity. Qed.

Lemma modify_run f w : modify f w = (Ok tt, f w).
Proof. reflexivity. Qed.

Lemma ret_run {A} (a : A) w : ret a w = (Ok a, w).
Proof. reflexivity. Qed.

Lemma get_run w : get w = (Ok w, w).
Proof. reflexivity. Qed.

Lemma print_print a b w : print b (print a w) = print (a ++ b) w.
Proof. unfold print. simpl. by rewrite app_assoc. Qed.

Lemma print_nil w : print [] w = w.
Proof. destruct w. unfold print. simpl. by rewrite app_nil_r. Qed.

(** Runs a computation made of binds, prints and assignments. *)
Ltac run :=
  repeat (rewrite bind_unfold || rewrite show_print || rewrite modify_run
          || rewrite ret_run || rewrite get_run || cbv beta iota).

(** ** Strings and lines *)

Lemma append_nil_l t : "" +:+ t = t.
Proof. reflexivity. Qed.

Lemma append_cons c s t : String c s +:+ t = String c (s +:+ t).
Proof. reflexivity. Qed.

Lemma append_nil_r s : s +:+ "" = s.
Proof.
  induction s as [|c s IH]; [reflexivity|].
  rewrite append_cons, IH. reflexivity.
Qed.

Lemma append_assoc s t u : (s +:+ t) +:+ u = s +:+ (t +:+ u).
Proof.
  induction s as [|c s IH]; [reflexivity|].
  rewrite !append_cons, IH. reflexivity.
Qed.

Lemma split_nonempty sep s : JsString.split sep s <> [].
Proof.
  destruct s as [|c s]; simpl; [discriminate|].
  destruct (Ascii.eqb c sep); [discriminate|].
  destruct (JsString.split sep s); discriminate.
Qed.

Lemma split_no_sep sep s : has_char sep s = false -> JsString.split sep s = [s].
Proof.
  induction s as [|c s IH]; simpl; [reflexivity|].
  intros H. apply orb_false_iff in H as [H1 H2].
  rewrite H1, (IH H2). reflexivity.
Qed.

Lemma split_app sep s t :
  JsString.split sep (s +:+ t)
  = removelast (JsString.split sep s)
    ++ glue (default "" (last (JsString.split sep s))) (JsString.split sep t).
Proof.
  induction s as [|c s IH].
  - rewrite append_nil_l. simpl. pose proof (split_nonempty sep t).
    destruct (JsString.split sep t); [done|reflexivity].
  - rewrite append_cons. simpl. destruct (Ascii.eqb c sep).
    + rewrite IH. pose proof (split_nonempty sep s).
      destruct (JsString.split sep s) as [|x xs] eqn:E; [done|]. reflexivity.
    + rewrite IH. pose proof (split_nonempty sep s).
      destruct (JsString.split sep s) as [|x [|y xs]] eqn:E; [done| |].
      * simpl. destruct (JsString.split sep t); reflexivity.
      * reflexivity.
Qed.

(** Every element of a split is free of the separator. *)
Lemma split_elements_free sep s :
  Forall (fun x => has_char sep x = false) (JsString.split sep s).
Proof.
  induction s as [|c s IH]; simpl.
  - repeat constructor.
  - destruct (Ascii.eqb c sep) eqn:E.
    + constructor; [reflexivity|exact IH].
    + destruct (JsString.split sep s) as [|x xs];
        [repeat constructor; simpl; by rewrite E|].
      inversion IH; subst. constructor; [simpl; by rewrite E | done].
Qed.

Lemma pending_free text : has_char LF (pending text) = false.
Proof.
  unfold pending. pose proof (split_elements_free LF text) as H.
  destruct (last (JsString.split LF text)) as [x|] eqn:E; [|reflexivity].
  simpl. apply last_Some_elem_of in E.
  rewrite Forall_forall in H. apply H. done.
Qed.

Lemma removelast_app_nonempty {A} (l1 l2 : list A) :
  l2 <> [] -> removelast (l1 ++ l2) = l1 ++ removelast l2.
Proof. intros H. by apply removelast_app. Qed.

(** Cutting a text that starts with an unterminated rest. *)
Lemma split_pending_app s t :
  JsString.split LF (s +:+ t)
  = complete_lines s ++ JsString.split LF (pending s +:+ t).
Proof.
  rewrite (split_app LF (pending s) t).
  rewrite (split_no_sep LF (pending s)) by apply pending_free.
  simpl. apply split_app.
Qed.

Lemma complete_lines_app s t :
  complete_lines (s +:+ t)
  = complete_lines s ++ complete_lines (pending s +:+ t).
Proof.
  unfold complete_lines at 1. rewrite split_pending_app.
  apply removelast_app_nonempty, split_nonempty.
Qed.

Lemma pending_app s t : pending (s +:+ t) = pending (pending s +:+ t).
Proof.
  unfold pending at 1. rewrite split_pending_app.
  remember (pending s +:+ t) as u. unfold pending.
  pose proof (split_nonempty LF u) as H.
  destruct (JsString.split LF u) as [|x xs]; [done|].
  by rewrite last_app_cons.
Qed.

Lemma complete_lines_free s : has_char LF s = false -> complete_lines s = [].
Proof. intros H. unfold complete_lines. by rewrite split_no_sep. Qed.

Lemma has_char_app c s t :
  has_char c (s +:+ t) = has_char c s || has_char c t.
Proof.
  induction s as [|x s IH]; [reflexivity|].
  rewrite append_cons. simpl. rewrite IH. by rewrite orb_assoc.
Qed.

(** A terminated line: one complete line, nothing pending. *)
Lemma split_terminated s :
  has_char LF s = false -> JsString.split LF (s +:+ nl) = [s; ""].
Proof.
  intros H. rewrite split_app, (split_no_sep _ _ H).
  unfold nl. simpl. by rewrite append_nil_r.
Qed.

Section ReaderFacts.
Context `{rt : Runtime}.

(** The [catch] of the reader prints and goes on: a line never throws. *)
Lemma try_catch_show (c : M unit) d w :
  exists w', try_catch c (fun _ => show d) w = (Ok tt, w').
Proof.
  unfold try_catch. destruct (c w) as [[[]|e] w']; simpl; eauto.
Qed.

Lemma processLine_returns line w :
  exists w',
    processLine line w
    = (Ok (negb (blank line) && String.eqb line "terminate"), w').
Proof.
  unfold processLine, blank.
  destruct (negb (JsString.truthy (JsString.trim line))); simpl; [eauto|].
  destruct (String.eqb line "terminate"); simpl; [eauto|].
  rewrite bind_unfold.
  match goal with
  | |- context [try_catch ?c ?h w] =>
      destruct (try_catch_show c (ShowParseFailure line) w) as [w' E]
  end.
  rewrite E. eauto.
Qed.

Lemma processLine_blank line w :
  blank line = true -> processLine line w = (Ok false, w).
Proof. unfold processLine, blank. intros ->. reflexivity. Qed.

Lemma processLines_blank lines w :
  forallb blank lines = true -> processLines lines w = (Ok tt, w).
Proof.
  induction lines as [|l ls IH]; simpl; [reflexivity|].
  intros [H1 H2]%andb_true_iff.
  rewrite bind_unfold, (processLine_blank _ _ H1). auto.
Qed.

Lemma sentinel_last_app_r l1 l2 :
  sentinel_last (l1 ++ l2) = true -> sentinel_last l2 = true.
Proof.
  induction l1 as [|x l1 IH]; simpl; [done|].
  intros [_ H]%andb_true_iff. auto.
Qed.

(** A batch of lines cut in two gives the same as the whole batch, when
    nothing follows a sentinel. *)
Lemma processLines_app l1 l2 w :
  sentinel_last (l1 ++ l2) = true ->
  processLines (l1 ++ l2) w = (processLines l1 ;; processLines l2) w.
Proof.
  revert w. induction l1 as [|x l1 IH]; intros w H.
  - simpl. reflexivity.
  - simpl in H. apply andb_true_iff in H as [Hx Hrest].
    simpl. rewrite !bind_unfold.
    destruct (processLine_returns x w) as [w' E]. rewrite E.
    destruct (negb (blank x) && String.eqb x "terminate") eqn:Ex.
    + simpl. rewrite forallb_app in Hx. apply andb_true_iff in Hx as [_ H2].
      by rewrite processLines_blank.
    + rewrite (IH w' Hrest). reflexivity.
Qed.

(** Whatever the cuts, the loop processes the complete lines of the text
    delivered, in one batch. *)
Lemma readLoop_canonical reads : forall buffer w,
  has_char LF buffer = false ->
  sentinel_last (complete_lines (buffer +:+ delivered reads)) = true ->
  readLoop buffer reads w
  = processLines (complete_lines (buffer +:+ delivered reads)) w.
Proof.
  induction reads as [|r rs IH]; intros buffer w Hb Hs.
  - simpl. rewrite append_nil_r, complete_lines_free by done. reflexivity.
  - simpl delivered in *. rewrite <- append_assoc in *.
    rewrite complete_lines_app in *.
    rewrite processLines_app by done.
    simpl. unfold JsString.pop. simpl fst. simpl snd.
    fold (complete_lines (buffer +:+ r)). fold (pending (buffer +:+ r)).
    rewrite !bind_unfold.
    destruct (processLines (complete_lines (buffer +:+ r)) w) as [[[]|e] w'];
      [|reflexivity].
    apply IH; [apply pending_free|].
    by apply sentinel_last_app_r in Hs.
Qed.

Lemma readLoop_split_independent reads1 reads2 w :
  delivered reads1 = delivered reads2 ->
  sentinel_last (complete_lines (delivered reads1)) = true ->
  readLoop "" reads1 w = readLoop "" reads2 w.
Proof.
  intros E H.
  rewrite !readLoop_canonical; rewrite ?append_nil_l; try done.
  - by rewrite E.
  - by rewrite <- E.
Qed.

(** Reads that bring no newline only fill the buffer. *)
Lemma readLoop_pieces pieces : forall buffer later w,
  has_char LF buffer = false ->
  forallb (fun p => negb (has_char LF p)) pieces = true ->
  readLoop buffer (pieces ++ later) w
  = readLoop (buffer +:+ delivered pieces) later w.
Proof.
  induction pieces as [|p ps IH]; intros buffer later w Hb Hp.
  - simpl. by rewrite append_nil_r.
  - simpl in Hp. apply andb_true_iff in Hp as [Hp Hps].
    apply negb_true_iff in Hp.
    assert (Hbp : has_char LF (buffer +:+ p) = false)
      by (rewrite has_char_app, Hb, Hp; reflexivity).
    simpl. unfold JsString.pop. simpl fst. simpl snd.
    rewrite (split_no_sep _ _ Hbp). simpl.
    rewrite bind_unfold. simpl.
    rewrite IH by done. by rewrite append_assoc.
Qed.

(** What follows the last newline of the last read is never looked at. *)
Lemma readLoop_last_tail reads : forall buffer r tail w,
  has_char LF buffer = false ->
  has_char LF tail = false ->
  readLoop buffer (reads ++ [r +:+ tail]) w
  = readLoop buffer (reads ++ [r]) w.
Proof.
  induction reads as [|x xs IH]; intros buffer r tail w Hb Ht.
  - simpl. unfold JsString.pop. simpl fst. simpl snd.
    rewrite <- append_assoc.
    fold (complete_lines ((buffer +:+ r) +:+ tail)).
    fold (complete_lines (buffer +:+ r)).
    rewrite complete_lines_app.
    rewrite (complete_lines_free (pending (buffer +:+ r) +:+ tail)).
    + rewrite app_nil_r. rewrite !bind_unfold.
      by destruct (processLines (complete_lines (buffer +:+ r)) w)
        as [[[]|e] w'].
    + by rewrite has_char_app, pending_free, Ht.
  - simpl. unfold JsString.pop. simpl fst. simpl snd.
    rewrite !bind_unfold.
    destruct (processLines (removelast (JsString.split LF (buffer +:+ x))) w)
      as [[[]|e] w']; [|reflexivity].
    apply IH; [apply pending_free|done].
Qed.

(** The loop over the reads in two runs: the second starts with what the
    first left pending. *)
Lemma readLoop_app reads1 : forall buffer reads2 w,
  has_char LF buffer = false ->
  readLoop buffer (reads1 ++ reads2) w
  = (readLoop buffer reads1 ;;
     readLoop (pending (buffer +:+ delivered reads1)) reads2) w.
Proof.
  induction reads1 as [|r rs IH]; intros buffer reads2 w Hb.
  - simpl. rewrite append_nil_r. unfold pending.
    by rewrite (split_no_sep _ _ Hb).
  - simpl. unfold JsString.pop. simpl fst. simpl snd.
    fold (pending (buffer +:+ r)). rewrite !bind_unfold.
    destruct (processLines _ w) as [[[]|e] w']; [|reflexivity].
    rewrite IH by apply pending_free. rewrite bind_unfold.
    by rewrite <- pending_app, append_assoc.
Qed.

(** A read that brings the end of a line and its newline: the line is what
    was pending followed by what the read brings. *)
Lemma readLoop_line buffer line_end w :
  has_char LF buffer = false -> has_char LF line_end = false ->
  readLoop buffer [line_end +:+ nl] w
  = processLines [buffer +:+ line_end] w.
Proof.
  intros Hb Hl.
  assert (Hd : has_char LF (buffer +:+ line_end) = false)
    by (by rewrite has_char_app, Hb, Hl).
  simpl. unfold JsString.pop. simpl fst. simpl snd.
  rewrite <- append_assoc, (split_terminated _ Hd). simpl.
  rewrite !bind_unfold.
  by destruct (processLine (buffer +:+ line_end) w) as [[[]|e] w'].
Qed.

Lemma delivered_free pieces :
  forallb (fun p => negb (has_char LF p)) pieces = true ->
  has_char LF (delivered pieces) = false.
Proof.
  induction pieces as [|p ps IH]; [reflexivity|].
  simpl. intros [Hp Hps]%andb_true_iff.
  apply negb_true_iff in Hp. by rewrite has_char_app, Hp, IH.
Qed.

End ReaderFacts.
(** ** The creation stream *)

(** C1.  The frames the reader reconstructs are meant not to depend on where
    the stream is cut.  They do when a line follows the sentinel: the
    [break] at the sentinel leaves the loop over the lines of one read, not
    the loop over the reads, so the line [{"chunk":"late"}] after
    [terminate] is skipped when both come in one read and processed when
    they come in two. *)
Theorem createAgent_sentinel_then_line_depends_on_cut :
  let sentinel := "terminate" +:+ nl in
  let late := chunk_line "late" +:+ nl in
  delivered [sentinel +:+ late] = delivered [sentinel; late]
  /\ console (exec (@createAgent node (answer [sentinel +:+ late])) initial)
     = [ShowStarting; ShowCreatingAgent; ShowStreamTerminated]
  /\ console (exec (@createAgent node (answer [sentinel; late])) initial)
     = [ShowStarting; ShowCreatingAgent; ShowStreamTerminated;
        ShowChunk (Some (JString "late"))].
Proof. repeat split; vm_compute; reflexivity. Qed.

(** C2, as stated, fails: a last line without its newline is a frame when
    processed, and the reader ends without processing it. *)
Lemma createAgent_drops_unterminated_last_line :
  console (exec (@processLine node (chunk_line "hello")) initial)
  = [ShowChunk (Some (JString "hello"))]
  /\ console (exec (@createAgent node (answer [chunk_line "hello"])) initial)
     = [ShowStarting; ShowCreatingAgent]
  /\ exec (@readLoop node "" [chunk_line "hello"]) initial = initial.
Proof. repeat split; vm_compute; reflexivity. Qed.

(** C2, amended.  An unterminated piece of a line stays in the buffer from
    read to read, whatever was read before it: when the end of a line comes
    in pieces after any reads, the line is processed once, whole (what the
    earlier reads left pending, the pieces, the end), by the read that
    brings its newline, and the pieces before that read process nothing.
    Nothing flushes the buffer when the stream ends: what follows the last
    newline is dropped. *)
Theorem readLoop_carries_over_and_never_flushes
    `{rt : Runtime} (before pieces reads : list string)
    (line_end r tail : string) (w : World) :
  forallb (fun p => negb (has_char LF p)) pieces = true ->
  has_char LF line_end = false ->
  has_char LF tail = false ->
  readLoop "" (before ++ pieces ++ [line_end +:+ nl]) w
  = (readLoop "" before ;;
     processLines
       [pending (delivered before) +:+ delivered pieces +:+ line_end]) w
  /\ readLoop "" (before ++ pieces) w = readLoop "" before w
  /\ readLoop "" (reads ++ [r +:+ tail]) w = readLoop "" (reads ++ [r]) w.
Proof.
  intros Hp Hl Ht.
  pose proof (delivered_free pieces Hp) as Hd.
  split; [|split].
  - rewrite readLoop_app by reflexivity. rewrite append_nil_l.
    rewrite !bind_unfold.
    destruct (readLoop "" before w) as [[[]|e] w']; [|reflexivity].
    rewrite readLoop_pieces by (apply pending_free || done).
    rewrite readLoop_line, append_assoc; [reflexivity| |done].
    by rewrite has_char_app, pending_free, Hd.
  - rewrite readLoop_app by reflexivity. rewrite bind_unfold.
    destruct (readLoop "" before w) as [[[]|e] w']; [|reflexivity].
    rewrite <- (app_nil_r pieces).
    by rewrite readLoop_pieces by (apply pending_free || done).
  - by apply readLoop_last_tail.
Qed.

Lemma readLoop_carries_over_and_never_flushes_witness :
  let before := [session_line +:+ nl +:+ "{" +:+ String DQUOTE "chu"] in
  let pieces := ["nk" +:+ String DQUOTE ":"; String DQUOTE "hel"] in
  let line_end := "lo" +:+ String DQUOTE "}" in
  let reads := [session_line +:+ nl] in
  let r := chunk_line "plan" +:+ nl in
  let tail := "termin" in
  forallb (fun p => negb (has_char LF p)) pieces = true
  /\ has_char LF line_end = false
  /\ has_char LF tail = false
  /\ pending (delivered before) +:+ delivered pieces +:+ line_end
     = chunk_line "hello"
  /\ console (exec (@readLoop node "" before) initial)
     = [ShowAgentCreated (Some (JString "a1"));
        ShowWebSocket (Some (JString "ws://x"));
        ShowTemplate (Some (JString "t"))]
  /\ console (exec (@readLoop node ""
                      (before ++ pieces ++ [line_end +:+ nl])) initial)
     = [ShowAgentCreated (Some (JString "a1"));
        ShowWebSocket (Some (JString "ws://x"));
        ShowTemplate (Some (JString "t"));
        ShowChunk (Some (JString "hello"))]
  /\ @readLoop node "" (before ++ pieces ++ [line_end +:+ nl]) initial
     = (@readLoop node "" before ;;
        @processLines node
          [pending (delivered before) +:+ delivered pieces +:+ line_end])
         initial
  /\ @readLoop node "" (before ++ pieces) initial
     = @readLoop node "" before initial
  /\ @readLoop node "" (reads ++ [r +:+ tail]) initial
     = @readLoop node "" (reads ++ [r]) initial.
Proof.
  cbv zeta.
  split; [reflexivity|]. split; [reflexivity|]. split; [reflexivity|].
  split; [vm_compute; reflexivity|].
  split; [vm_compute; reflexivity|].
  split; [vm_compute; reflexivity|].
  apply (@readLoop_carries_over_and_never_flushes node); reflexivity.
Defined.
(** ** The dispatcher *)

Section DispatchFacts.
Context `{rt : Runtime}.

Lemma one_of_false_cons s x l :
  one_of s (x :: l) = false -> String.eqb s x = false /\ one_of s l = false.
Proof. unfold one_of. simpl. intros H. by apply orb_false_iff in H. Qed.

(** The default case of the [switch]. *)
Lemma unknown_frame msg w :
  one_of (WebSocketResponse.type msg) recognized = false ->
  handleWebSocketMessage msg w
  = (Ok tt, print [ShowUnknown (WebSocketResponse.type msg)] w).
Proof.
  intros H. unfold recognized in H.
  repeat (apply one_of_false_cons in H as [? H]).
  unfold handleWebSocketMessage, one_of. cbn [existsb].
  repeat match goal with
         | E : String.eqb _ _ = false |- _ => rewrite E; clear E
         end.
  reflexivity.
Qed.

(** [a || b || c || null] is the first non-empty field. *)
Lemma or_else_chain3 (a b c : option string) :
  a ||| b ||| c ||| None = first_non_empty [a; b; c].
Proof.
  unfold or_else. simpl.
  destruct (truthy_string a) eqn:Ea; rewrite ?Ea; [reflexivity|].
  destruct (truthy_string b) eqn:Eb; rewrite ?Eb; [reflexivity|].
  by destruct (truthy_string c) eqn:Ec; rewrite ?Ec.
Qed.

Lemma or_else_chain2 (a b : option string) :
  a ||| b ||| None = first_non_empty [a; b].
Proof.
  unfold or_else. simpl.
  destruct (truthy_string a) eqn:Ea; rewrite ?Ea; [reflexivity|].
  by destruct (truthy_string b) eqn:Eb; rewrite ?Eb.
Qed.

Lemma first_non_empty_truthy fields u :
  first_non_empty fields = Some u -> truthy_string (Some u) = true.
Proof.
  induction fields as [|f fs IH]; simpl; [done|].
  destruct (truthy_string f) eqn:E; [|done]. by intros ->.
Qed.

(** A completion frame of either lineage stores the first non-empty field
    of its chain, [null] when there is none, and prints a banner with the
    URL found; it does nothing else. *)
Lemma completion_frame msg w :
  is_completion msg = true ->
  exists out u,
    handleWebSocketMessage msg w
    = (Ok tt,
       print out
         (set_lastDeploymentUrl (first_non_empty (url_chain msg)) w))
    /\ shown_urls out = [u]
    /\ u ||| None = first_non_empty (url_chain msg).
Proof.
  unfold is_completion, one_of. simpl. rewrite orb_false_r.
  intros [H|H]%orb_true_iff; apply String.eqb_eq in H.
  - set (url := WebSocketResponse.deployedUrl msg
                ||| WebSocketResponse.previewURL msg
                ||| WebSocketResponse.previewUrl msg).
    assert (E : first_non_empty (url_chain msg) = url ||| None).
    { unfold url_chain. rewrite H. symmetry. apply or_else_chain3. }
    rewrite E. unfold handleWebSocketMessage. rewrite H. simpl. fold url.
    destruct (truthy_number (WebSocketResponse.filesDeployed msg));
      destruct (truthy_string (WebSocketResponse.runId msg));
      (eexists _, url; split;
       [run; rewrite ?print_print; reflexivity|split; reflexivity]).
  - set (url := WebSocketResponse.deploymentUrl msg
                ||| WebSocketResponse.workersUrl msg).
    assert (E : first_non_empty (url_chain msg) = url ||| None).
    { unfold url_chain. rewrite H. symmetry. apply or_else_chain2. }
    rewrite E. unfold handleWebSocketMessage. rewrite H. simpl. fold url.
    eexists _, url. split; [run; reflexivity|split; reflexivity].
Qed.

(** The listener swallows what the handler throws. *)
Lemma on_message_run m w :
  on_message (Some m) w = (Ok tt, exec (handleWebSocketMessage m) w).
Proof.
  unfold on_message, try_catch, exec.
  by destruct (handleWebSocketMessage m w) as [[[]|e] w'].
Qed.

Lemma receive_cons m ms w :
  receive (m :: ms) w = receive ms (exec (handleWebSocketMessage m) w).
Proof.
  unfold receive. cbn [for_of]. by rewrite bind_unfold, on_message_run.
Qed.

Lemma exec_receive_cons m ms w :
  exec (receive (m :: ms)) w
  = exec (receive ms) (exec (handleWebSocketMessage m) w).
Proof. unfold exec at 1. by rewrite receive_cons. Qed.

Lemma exec_receive_snoc ms : forall m w,
  exec (receive (ms ++ [m])) w
  = exec (handleWebSocketMessage m) (exec (receive ms) w).
Proof.
  induction ms as [|x ms IH]; intros m w.
  - simpl app. by rewrite exec_receive_cons.
  - simpl app. rewrite !exec_receive_cons. apply IH.
Qed.

(** The [/url] command prints the latest URL, or that there is none. *)
Lemma commandLoop_url w :
  commandLoop_turn "/url" w
  = (Ok false,
     print [if truthy_string (lastDeploymentUrl w)
            then ShowLastDeploymentUrl (default "" (lastDeploymentUrl w))
            else ShowNoDeploymentUrl] w).
Proof.
  unfold commandLoop_turn.
  change (JsString.trim "/url") with "/url". simpl.
  run. destruct (truthy_string (lastDeploymentUrl w)); run; reflexivity.
Qed.

End DispatchFacts.
(** ** Deployment URLs *)

Section DeploymentClaims.
Context `{rt : Runtime}.

(** C5.  A completion frame delivers the first non-empty field of the chain
    of its lineage: [deployedUrl], [previewURL], [previewUrl] for a preview,
    [deploymentUrl], [workersUrl] for a production deployment.  That URL is
    stored as the latest one and printed in the banner.  In particular,
    with the first field absent and the second and third present, the URL
    is the second field's. *)
Theorem completed_url_follows_fallback_chain
    (msg : WebSocketResponse.t) (w : World) :
  is_completion msg = true ->
  let w' := exec (handleWebSocketMessage msg) w in
  lastDeploymentUrl w' = first_non_empty (url_chain msg)
  /\ (forall u, first_non_empty (url_chain msg) = Some u ->
        shown_urls (console w') = shown_urls (console w) ++ [Some u])
  /\ (forall b c, url_chain msg = [None; Some b; Some c] -> b <> "" ->
        lastDeploymentUrl w' = Some b).
Proof.
  intros Hc w'.
  destruct (completion_frame msg w Hc) as (out & u & E & Hout & Hu).
  assert (Hlast : lastDeploymentUrl w' = first_non_empty (url_chain msg)).
  { unfold w', exec. rewrite E. reflexivity. }
  split; [exact Hlast|]. split.
  - intros x Hx. unfold w', exec. rewrite E. simpl.
    unfold shown_urls in *. rewrite omap_app, Hout.
    rewrite Hx in Hu. unfold or_else in Hu.
    destruct (truthy_string u); [by rewrite Hu | discriminate].
  - intros b c Hchain Hb. rewrite Hlast, Hchain. simpl.
    destruct b; [done | reflexivity].
Qed.

(** C10.  A completion frame none of whose fields holds a non-empty string
    sets the latest URL to [null], whatever was stored before; [/url] then
    reports that there is no deployment URL. *)
Theorem completion_without_url_clears_latest
    (msg : WebSocketResponse.t) (w : World) :
  is_completion msg = true ->
  forallb (fun f => negb (truthy_string f)) (url_chain msg) = true ->
  let w' := exec (handleWebSocketMessage msg) w in
  lastDeploymentUrl w' = None
  /\ commandLoop_turn "/url" w' = (Ok false, print [ShowNoDeploymentUrl] w').
Proof.
  intros Hc Hall w'.
  destruct (completion_frame msg w Hc) as (out & u & E & _ & _).
  assert (Hnone : first_non_empty (url_chain msg) = None).
  { clear -Hall. induction (url_chain msg) as [|f fs IH]; [reflexivity|].
    simpl in *. apply andb_true_iff in Hall as [Hf Hfs].
    apply negb_true_iff in Hf. rewrite Hf. auto. }
  assert (Hlast : lastDeploymentUrl w' = None).
  { unfold w', exec. rewrite E. simpl. exact Hnone. }
  split; [exact Hlast|].
  rewrite commandLoop_url, Hlast. reflexivity.
Qed.

(** C6, amended.  After completion frames of the two lineages in any
    order, the latest URL is the one the last frame delivers, whatever its
    lineage, and [/url] reports it.  The client keeps no record per
    lineage: the frames change nothing but that one URL (and the terminal),
    and the state they leave is the state the last frame alone leaves. *)
Theorem latest_url_is_the_last_completion
    (frames : list WebSocketResponse.t) (final : WebSocketResponse.t)
    (w : World) :
  forallb is_completion (frames ++ [final]) = true ->
  let w' := exec (receive (frames ++ [final])) w in
  lastDeploymentUrl w' = first_non_empty (url_chain final)
  /\ commandLoop_turn "/url" w'
     = (Ok false,
        print [match first_non_empty (url_chain final) with
               | Some u => ShowLastDeploymentUrl u
               | None => ShowNoDeploymentUrl
               end] w')
  /\ session_data w' = session_data w
  /\ globals w' = globals (exec (receive [final]) w).
Proof.
  intros Hall w'.
  rewrite forallb_app in Hall. apply andb_true_iff in Hall as [Hfs Hf].
  simpl in Hf. rewrite andb_true_r in Hf.
  assert (Hkeep : forall fs v, forallb is_completion fs = true ->
            session_data (exec (receive fs) v) = session_data v).
  { induction fs as [|m ms IH]; intros v H; [reflexivity|].
    simpl in H. apply andb_true_iff in H as [Hm Hms].
    rewrite exec_receive_cons, (IH _ Hms).
    destruct (completion_frame m v Hm) as (out & u & E & _).
    unfold exec. rewrite E. reflexivity. }
  set (v := exec (receive frames) w).
  assert (Hv : session_data v = session_data w) by (apply Hkeep, Hfs).
  assert (Hw' : w' = exec (handleWebSocketMessage final) v)
    by apply exec_receive_snoc.
  destruct (completion_frame final v Hf) as (out & u & E & _).
  destruct (completion_frame final w Hf) as (out0 & u0 & E0 & _).
  assert (Hlast : lastDeploymentUrl w' = first_non_empty (url_chain final)).
  { rewrite Hw'. unfold exec. rewrite E. reflexivity. }
  split; [exact Hlast|]. split; [|split].
  - rewrite commandLoop_url, Hlast.
    destruct (first_non_empty (url_chain final)) as [x|] eqn:Ex;
      [|reflexivity].
    by rewrite (first_non_empty_truthy _ _ Ex).
  - rewrite Hw'. unfold exec. rewrite E. simpl. exact Hv.
  - rewrite exec_receive_cons. unfold receive at 1. cbn [for_of exec].
    rewrite Hw'. unfold exec. rewrite E, E0. unfold globals. simpl.
    unfold session_data in Hv. injection Hv; intros. congruence.
Qed.

End DeploymentClaims.

Lemma completed_url_follows_fallback_chain_witness :
  let msg :=
    preview_completed None (Some "https://b.example")
      (Some "https://c.example") in
  is_completion msg = true
  /\ url_chain msg
     = [None; Some "https://b.example"; Some "https://c.example"]
  /\ lastDeploymentUrl (exec (@handleWebSocketMessage node msg) established)
     = Some "https://b.example".
Proof.
  cbv zeta. split; [reflexivity|]. split; [reflexivity|].
  pose proof (@completed_url_follows_fallback_chain node
                (preview_completed None (Some "https://b.example")
                   (Some "https://c.example"))
                established eq_refl) as H.
  cbv zeta in H. destruct H as (_ & _ & H).
  apply (H _ _ eq_refl). discriminate.
Defined.

Lemma completion_without_url_clears_latest_witness :
  let msg := preview_completed None (Some "") None in
  is_completion msg = true
  /\ forallb (fun f => negb (truthy_string f)) (url_chain msg) = true
  /\ lastDeploymentUrl deployed_before = Some "https://old.example"
  /\ lastDeploymentUrl (exec (@handleWebSocketMessage node msg) deployed_before)
     = None.
Proof.
  cbv zeta. split; [reflexivity|]. split; [reflexivity|].
  split; [reflexivity|].
  apply (@completion_without_url_clears_latest node
           (preview_completed None (Some "") None) deployed_before);
    reflexivity.
Defined.

(** C6, as stated, fails: no record of a lineage outlives the completion of
    the other.  The preview completes and its URL is stored; the production
    deployment completes, and the state is the one it would be had the
    preview never completed. *)
Lemma completion_replaces_the_other_lineage :
  let prev := preview_completed None (Some "https://p.example") None in
  let prod := production_completed (Some "https://q.workers.dev") None in
  lastDeploymentUrl (exec (@receive node [prev]) established)
  = Some "https://p.example"
  /\ globals (exec (@receive node [prev; prod]) established)
     = globals (exec (@receive node [prod]) established)
  /\ lastDeploymentUrl
       (exec (@receive node [prev; production_completed None None])
          established)
     = None.
Proof. repeat split; vm_compute; reflexivity. Qed.

Lemma latest_url_is_the_last_completion_witness :
  let prev := preview_completed None (Some "https://p.example") None in
  let prod := production_completed (Some "https://q.workers.dev") None in
  forallb is_completion ([prod; prev] ++ [prod]) = true
  /\ lastDeploymentUrl
       (exec (@receive node ([prod; prev] ++ [prod])) established)
     = Some "https://q.workers.dev".
Proof.
  cbv zeta. split; [reflexivity|].
  apply (@latest_url_is_the_last_completion node
           [production_completed (Some "https://q.workers.dev") None;
            preview_completed None (Some "https://p.example") None]
           (production_completed (Some "https://q.workers.dev") None)
           established eq_refl).
Defined.

(** ** Frames the client only displays *)

Section DisplayClaims.
Context `{rt : Runtime}.

(** C7.  A frame whose discriminant the client does not know is printed
    and ignored: the handler returns, no global variable changes, no file
    is written, [saveFile] is not called, and the frames that follow are
    processed as if it had not come. *)
Theorem unknown_discriminant_is_ignored
    (msg : WebSocketResponse.t) (later : list WebSocketResponse.t)
    (w : World) :
  one_of (WebSocketResponse.type msg) recognized = false ->
  let w' := exec (handleWebSocketMessage msg) w in
  fst (handleWebSocketMessage msg w) = Ok tt
  /\ globals w' = globals w
  /\ session_data w' = session_data w
  /\ w' = print [ShowUnknown (WebSocketResponse.type msg)] w
  /\ exec (receive (msg :: later)) w = exec (receive later) w'.
Proof.
  intros H w'. unfold w', exec. rewrite receive_cons.
  unfold exec. rewrite (unknown_frame _ _ H). simpl. done.
Qed.

(** C8, amended.  The client keeps no status of the phases: a
    phase-progress frame is printed, the same way whatever came before it,
    also after [phase_failed] for the same phase number, and changes
    nothing else.  No frame is rejected. *)
Theorem phase_frames_are_only_displayed (msg : WebSocketResponse.t) :
  is_phase msg = true ->
  exists out,
    out <> []
    /\ forall w, handleWebSocketMessage msg w = (Ok tt, print out w).
Proof.
  unfold is_phase, one_of. simpl. rewrite orb_false_r.
  intros H.
  repeat (apply orb_true_iff in H as [H|H]); apply String.eqb_eq in H;
    unfold handleWebSocketMessage; rewrite H; simpl;
    try (eexists; split; [|intros w; run; reflexivity]; discriminate).
  all: destruct (truthy_number (WebSocketResponse.filesCount msg));
    destruct (truthy_number (WebSocketResponse.fixCount msg));
    (eexists; split;
     [|intros w; run; rewrite ?print_print; reflexivity]; discriminate).
Qed.

End DisplayClaims.

Lemma unknown_discriminant_is_ignored_witness :
  let msg := WebSocketResponse.bare "model_configs_info" in
  one_of (WebSocketResponse.type msg) recognized = false
  /\ exec (@handleWebSocketMessage node msg) established
     = print [ShowUnknown "model_configs_info"] established.
Proof.
  cbv zeta. split; [reflexivity|].
  apply (@unknown_discriminant_is_ignored node
           (WebSocketResponse.bare "model_configs_info") [] established
           eq_refl).
Defined.

(** C8, as stated, fails: a phase that failed is shown as validated by the
    next frame for its number, and neither frame leaves a trace in the
    state. *)
Lemma phase_failed_is_not_sticky :
  let frames :=
    [phase_frame "phase_failed" 1; phase_frame "phase_validated" 1] in
  console (exec (@receive node frames) established)
  = [ShowPhaseFailed (Some "phase");
     ShowPhaseDone "phase_validated" (Some "phase")]
  /\ globals (exec (@receive node frames) established) = globals established
  /\ session_data (exec (@receive node frames) established)
     = session_data established.
Proof. repeat split; vm_compute; reflexivity. Qed.

Lemma phase_frames_are_only_displayed_witness :
  is_phase (phase_frame "phase_validated" 1) = true
  /\ exists out,
       out <> []
       /\ forall w,
            @handleWebSocketMessage node (phase_frame "phase_validated" 1) w
            = (Ok tt, print out w).
Proof.
  split; [reflexivity|].
  apply (@phase_frames_are_only_displayed node); reflexivity.
Defined.

(** ** Files *)

Section FileFacts.
Context `{rt : Runtime}.

Lemma truthy_id id : id <> "" -> truthy (Some (JString id)) = true.
Proof. by destruct id. Qed.

(** With the session established and the file system willing, [saveFile]
    creates the directory, writes the file and records it. *)
Lemma saveFile_established id p c w :
  agentId w = Some (JString id) -> id <> "" ->
  mkdir_ok (path.dirname (output_path id p)) = true ->
  writeFile_ok (output_path id p) = true ->
  saveFile (Some p) (Some c) w = (Ok tt, after_saveFile id p c w).
Proof.
  intros Hid Hne Hm Hw. unfold saveFile, note_saveFile. run. simpl.
  rewrite Hid, (truthy_id _ Hne). simpl.
  unfold mkdir, writeFile, output_path in *. rewrite Hm, Hw. run.
  unfold after_saveFile, set_filesMap, output_path. simpl.
  by rewrite <- app_assoc, Hid.
Qed.

(** Whatever the state and the file system, [saveFile] is counted once,
    prints nothing, and writes nothing but the contents it was given. *)
Lemma saveFile_effects p c w :
  let w' := exec (saveFile (Some p) (Some c)) w in
  saveFile_calls w' = saveFile_calls w ++ [(Some p, Some c)]
  /\ console w' = console w
  /\ exists ops,
       fs_ops w' = fs_ops w ++ ops
       /\ forall file data, In (WriteFile file data) ops -> data = c.
Proof.
  assert (Hidle : exists ops : list FsOp,
            fs_ops w = fs_ops w ++ ops
            /\ forall file data, In (WriteFile file data) ops -> data = c).
  { exists []. split; [by rewrite app_nil_r|by intros ? ? []]. }
  unfold exec, saveFile, note_saveFile. run. simpl.
  destruct (agentId w) as [v|]; simpl; [|done].
  destruct v as [|b|n|s|l|ms]; simpl;
    try done; try (by destruct b); try (by destruct (literal_is_zero n)).
  destruct (JsString.truthy s); simpl; [|done].
  unfold mkdir, writeFile.
  destruct (mkdir_ok _); run; simpl; [|done].
  destruct (writeFile_ok _); run; simpl.
  - split; [reflexivity|]. split; [reflexivity|].
    eexists. split; [by rewrite <- app_assoc|].
    intros file data [H|[H|[]]]; congruence.
  - destruct (writeFile_written _); run; simpl;
      (split; [reflexivity|]); (split; [reflexivity|]);
      eexists; (split; [reflexivity|]);
      intros file data [H|[]]; congruence.
Qed.

(** The frames that announce a file and bring its pieces. *)
Lemma file_generating_frame msg :
  WebSocketResponse.type msg = "file_generating" ->
  exists out, forall w, handleWebSocketMessage msg w = (Ok tt, print out w).
Proof.
  intros H. unfold handleWebSocketMessage. rewrite H. simpl.
  destruct (truthy_string (WebSocketResponse.filePurpose msg));
    eexists; intros w; run; rewrite ?print_print; reflexivity.
Qed.

Lemma file_chunk_frame msg w :
  WebSocketResponse.type msg = "file_chunk_generated" ->
  handleWebSocketMessage msg w = (Ok tt, w).
Proof. intros H. unfold handleWebSocketMessage. rewrite H. reflexivity. Qed.

Lemma file_chunk_frames chunks : forall w,
  forallb (fun m => String.eqb (WebSocketResponse.type m)
                      "file_chunk_generated") chunks = true ->
  exec (receive chunks) w = w.
Proof.
  induction chunks as [|m ms IH]; intros w H; [reflexivity|].
  simpl in H. apply andb_true_iff in H as [Hm Hms].
  apply String.eqb_eq in Hm.
  rewrite exec_receive_cons. unfold exec at 2.
  rewrite (file_chunk_frame _ _ Hm). simpl. by apply IH.
Qed.

(** The frame that completes a file: one call of [saveFile] with the path
    and contents the frame carries, then a line on the terminal. *)
Lemma file_generated_frame msg p c w :
  WebSocketResponse.type msg = "file_generated" ->
  generated_file msg = Some (p, c) ->
  exists out,
    exec (handleWebSocketMessage msg) w
    = print out (exec (saveFile (Some p) (Some c)) w).
Proof.
  intros H Hf. unfold handleWebSocketMessage. rewrite H. simpl.
  unfold generated_file in Hf.
  assert (E : match WebSocketResponse.file msg with
              | Some f => (Some (FileOutput.filePath f),
                           Some (FileOutput.fileContents f))
              | None => (WebSocketResponse.filePath msg,
                         WebSocketResponse.fileContents msg)
              end = (Some p, Some c)).
  { destruct (WebSocketResponse.file msg); [congruence|].
    destruct (WebSocketResponse.filePath msg); [|done].
    destruct (WebSocketResponse.fileContents msg); [|done]. congruence. }
  rewrite E. simpl. unfold exec. rewrite bind_unfold.
  destruct (saveFile (Some p) (Some c) w) as [[[]|e] w1]; simpl.
  - destruct (truthy_number (WebSocketResponse.size msg));
      run; eexists; reflexivity.
  - exists []. by rewrite print_nil.
Qed.

Lemma entry_contents_keys (entries : list (string * FileOutput.t)) :
  (entry_contents <$> entries).*1 = entries.*1.
Proof. induction entries as [|e es IH]; [reflexivity|]. simpl. by f_equal. Qed.

(** The loop over the entries of a snapshot: one call per entry, and the
    entries laid over the file map. *)
Lemma save_entries id (entries : list (string * FileOutput.t)) : forall w,
  agentId w = Some (JString id) -> id <> "" ->
  (forall d, mkdir_ok d = true) -> (forall f, writeFile_ok f = true) ->
  NoDup entries.*1 ->
  exists w',
    for_of entries (fun entry =>
      saveFile (Some entry.1) (Some (FileOutput.fileContents entry.2))) w
    = (Ok tt, w')
    /\ saveFile_calls w' = saveFile_calls w ++ (entry_call <$> entries)
    /\ filesMap w'
       = list_to_map (entry_contents <$> entries)
         ∪ filesMap w
    /\ globals w'
       = (agentId w, websocketUrl w, ws w, filesMap w', lastDeploymentUrl w)
    /\ console w' = console w.
Proof.
  induction entries as [|[p f] es IH]; intros w Hid Hne Hm Hw Hnd.
  - exists w. simpl. rewrite app_nil_r, (left_id_L ∅ (∪)). done.
  - apply NoDup_cons in Hnd as [Hp Hes].
    cbn [for_of]. rewrite bind_unfold. cbn [fst snd].
    rewrite (saveFile_established id p (FileOutput.fileContents f) w)
      by auto.
    destruct (IH (after_saveFile id p (FileOutput.fileContents f) w))
      as (w' & E & Hcalls & Hfiles & Hglob & Hcons); auto.
    exists w'. split; [exact E|]. split; [|split; [|split]].
    + rewrite Hcalls. simpl. by rewrite <- app_assoc.
    + rewrite Hfiles. simpl.
      rewrite <- insert_union_l. symmetry. apply insert_union_r.
      apply not_elem_of_list_to_map_1. by rewrite entry_contents_keys.
    + rewrite Hglob. reflexivity.
    + rewrite Hcons. reflexivity.
Qed.

End FileFacts.
Section FileClaims.
Context `{rt : Runtime}.

(** C4.  Of a [file_generating] frame, any number of [file_chunk_generated]
    frames and a [file_generated] frame, only the last calls [saveFile],
    once, with the path and contents it carries (those of its inline [file],
    or else its own [filePath] and [fileContents]).  Up to it nothing is
    written; whatever is written after it holds those contents, never what
    the chunk frames brought.  With the session established and the file
    system willing, these contents are in the file map and on disk. *)
Theorem file_generated_is_the_only_write
    (announce : WebSocketResponse.t) (chunks : list WebSocketResponse.t)
    (completed : WebSocketResponse.t) (p c : string) (w : World) :
  WebSocketResponse.type announce = "file_generating" ->
  forallb (fun m => String.eqb (WebSocketResponse.type m)
                      "file_chunk_generated") chunks = true ->
  WebSocketResponse.type completed = "file_generated" ->
  generated_file completed = Some (p, c) ->
  let before := exec (receive (announce :: chunks)) w in
  let after := exec (receive ((announce :: chunks) ++ [completed])) w in
  (saveFile_calls before = saveFile_calls w
   /\ fs_ops before = fs_ops w
   /\ disk before = disk w
   /\ filesMap before = filesMap w)
  /\ saveFile_calls after = saveFile_calls w ++ [(Some p, Some c)]
  /\ (exists ops,
        fs_ops after = fs_ops w ++ ops
        /\ forall file data, In (WriteFile file data) ops -> data = c)
  /\ (forall id,
        agentId w = Some (JString id) -> id <> "" ->
        mkdir_ok (path.dirname (output_path id p)) = true ->
        writeFile_ok (output_path id p) = true ->
        filesMap after = <[p := c]> (filesMap w)
        /\ disk after = <[output_path id p := c]> (disk w)).
Proof.
  intros Ha Hc Hd Hf before after.
  destruct (file_generating_frame announce Ha) as [out Hout].
  assert (Hbefore : before = print out w).
  { unfold before. rewrite exec_receive_cons. unfold exec at 2.
    rewrite Hout. simpl. by apply file_chunk_frames. }
  destruct (file_generated_frame completed p c before Hd Hf) as [out2 Hafter].
  assert (Hafter' : after
                    = print out2 (exec (saveFile (Some p) (Some c)) before)).
  { unfold after. rewrite exec_receive_snoc. exact Hafter. }
  split; [by rewrite Hbefore|].
  destruct (saveFile_effects p c before) as (Hcalls & _ & ops & Hops & Hdata).
  split; [|split].
  - rewrite Hafter'. simpl. rewrite Hcalls, Hbefore. reflexivity.
  - exists ops. split; [|exact Hdata].
    rewrite Hafter'. simpl. rewrite Hops, Hbefore. reflexivity.
  - intros id Hid Hne Hm Hw. rewrite Hafter'. unfold exec.
    rewrite (saveFile_established id p c before) by (by rewrite ?Hbefore).
    rewrite Hbefore. by simpl.
Qed.

End FileClaims.

Lemma file_generated_is_the_only_write_witness :
  let announce :=
    file_frame "file_generating" (Some "src/App.tsx") None None None in
  let chunks :=
    [file_frame "file_chunk_generated" (Some "src/App.tsx")
       (Some "export ") None None;
     file_frame "file_chunk_generated" (Some "src/App.tsx")
       (Some "default") None None] in
  let completed :=
    file_frame "file_generated" (Some "src/App.tsx") None
      (Some "export default App") None in
  WebSocketResponse.type announce = "file_generating"
  /\ forallb (fun m => String.eqb (WebSocketResponse.type m)
                         "file_chunk_generated") chunks = true
  /\ WebSocketResponse.type completed = "file_generated"
  /\ generated_file completed = Some ("src/App.tsx", "export default App")
  /\ saveFile_calls
       (exec (@receive node ((announce :: chunks) ++ [completed])) established)
     = saveFile_calls established
       ++ [(Some "src/App.tsx", Some "export default App")].
Proof.
  cbv zeta. repeat (split; [reflexivity|]).
  pose proof
    (@file_generated_is_the_only_write node
       (file_frame "file_generating" (Some "src/App.tsx") None None None)
       [file_frame "file_chunk_generated" (Some "src/App.tsx")
          (Some "export ") None None;
        file_frame "file_chunk_generated" (Some "src/App.tsx")
          (Some "default") None None]
       (file_frame "file_generated" (Some "src/App.tsx") None
          (Some "export default App") None)
       "src/App.tsx" "export default App" established
       eq_refl eq_refl eq_refl eq_refl) as H.
  cbv zeta in H. exact (proj1 (proj2 H)).
Defined.

(** C3, as stated, fails: the snapshot is laid over the file map, which is
    not emptied first.  A file saved before the frame and absent from the
    snapshot stays: with a snapshot of one entry the map has two. *)
Lemma agent_connected_keeps_other_entries :
  let earlier :=
    file_frame "file_generated" (Some "old.ts") None (Some "x") None in
  let snapshot : gmap string FileOutput.t :=
    {["a.ts" := FileOutput.mk "a.ts" "A" None]} in
  let w' := exec (@receive node [earlier; agent_connected_frame snapshot])
              established in
  size snapshot = 1
  /\ size (filesMap w') = 2
  /\ filesMap w' !! "old.ts" = Some "x".
Proof. repeat split; vm_compute; reflexivity. Qed.

Section SnapshotClaims.
Context `{rt : Runtime}.

(** C3, amended.  With the session established and the file system
    willing, a connection-sync frame whose snapshot has N entries calls
    [saveFile] N times, once per entry with the entry's path and contents,
    and lays the snapshot over the file map: a path of the snapshot holds
    the contents of its entry, any other path keeps what it held.  The map
    is the snapshot, of size N, when it was empty before. *)
Theorem agent_connected_lays_snapshot_over_file_map
    (msg : WebSocketResponse.t) (st : AgentState.t) (sid : string)
    (w : World) :
  WebSocketResponse.type msg = "agent_connected" ->
  WebSocketResponse.state msg = Some (AgentStateOf st) ->
  agentId w = Some (JString sid) -> sid <> "" ->
  (forall d, mkdir_ok d = true) -> (forall f, writeFile_ok f = true) ->
  let files := AgentState.generatedFilesMap st in
  let w' := exec (handleWebSocketMessage msg) w in
  fst (handleWebSocketMessage msg w) = Ok tt
  /\ saveFile_calls w'
     = saveFile_calls w ++ (entry_call <$> map_to_list files)
  /\ length (entry_call <$> map_to_list files) = size files
  /\ filesMap w' = (FileOutput.fileContents <$> files) ∪ filesMap w
  /\ (filesMap w = ∅ ->
      filesMap w' = FileOutput.fileContents <$> files
      /\ size (filesMap w') = size files).
Proof.
  intros Hty Hst Hid Hne Hm Hw files w'.
  assert (Hsnap : list_to_map (entry_contents <$> map_to_list files)
                  = FileOutput.fileContents <$> files).
  { rewrite (list_fmap_ext entry_contents
               (prod_map Datatypes.id FileOutput.fileContents))
      by (by intros ? []).
    by rewrite list_to_map_fmap, list_to_map_to_list. }
  unfold w', exec, handleWebSocketMessage. rewrite Hty, Hst. simpl.
  run. fold files.
  destruct (save_entries sid (map_to_list files)
              (print [ShowAgentConnected (length (map_to_list files))
                        (AgentState.projectName st)
                        (AgentState.templateName st)
                        (AgentState.currentPhase st)
                        (AgentState.phasesCounter st)] w)
              Hid Hne Hm Hw (NoDup_fst_map_to_list files))
    as (v & E & Hcalls & Hfiles & _).
  rewrite E. simpl. rewrite Hsnap in Hfiles. simpl in Hcalls, Hfiles.
  split; [reflexivity|]. split; [exact Hcalls|].
  split; [by rewrite length_fmap, length_map_to_list|].
  split; [exact Hfiles|].
  intros Hempty. rewrite Hfiles, Hempty, (right_id_L ∅ (∪)).
  split; [reflexivity|apply map_size_fmap].
Qed.

End SnapshotClaims.

Lemma agent_connected_lays_snapshot_over_file_map_witness :
  let snapshot : gmap string FileOutput.t :=
    {["a.ts" := FileOutput.mk "a.ts" "A" None]} in
  let msg := agent_connected_frame snapshot in
  WebSocketResponse.type msg = "agent_connected"
  /\ agentId established = Some (JString "a1")
  /\ filesMap established = ∅
  /\ filesMap (exec (@handleWebSocketMessage node msg) established)
     = FileOutput.fileContents <$> snapshot.
Proof.
  cbv zeta. repeat (split; [reflexivity|]).
  pose proof
    (@agent_connected_lays_snapshot_over_file_map node
       (agent_connected_frame {["a.ts" := FileOutput.mk "a.ts" "A" None]})
       (AgentState.mk "todo" "vite"
          {["a.ts" := FileOutput.mk "a.ts" "A" None]} 0 0 [])
       "a1" established eq_refl eq_refl eq_refl
       ltac:(discriminate) (fun _ => eq_refl) (fun _ => eq_refl)) as H.
  cbv zeta in H. destruct H as (_ & _ & _ & _ & H).
  exact (proj1 (H eq_refl)).
Defined.

(** ** Paths *)

Lemma split_app_sep sep a b :
  JsString.split sep (a +:+ String sep b)
  = JsString.split sep a ++ JsString.split sep b.
Proof.
  rewrite split_app. simpl. rewrite Ascii.eqb_refl. simpl.
  rewrite append_nil_r.
  pose proof (split_nonempty sep a) as H.
  destruct (JsString.split sep a) as [|x xs] using rev_ind; [done|].
  rewrite removelast_last, last_snoc. simpl. by rewrite <- app_assoc.
Qed.

(** Segments other than [..] are pushed, or skipped when empty or [.]. *)
Lemma fold_step_without_dotdot allowAboveRoot segs : forall res,
  forallb (fun seg => negb (String.eqb seg "..")) segs = true ->
  fold_left (path.step allowAboveRoot) segs res
  = rev (List.filter plain_segment segs) ++ res.
Proof.
  induction segs as [|s segs IH]; intros res H; [reflexivity|].
  simpl in H. apply andb_true_iff in H as [Hs Hsegs].
  apply negb_true_iff in Hs.
  simpl. rewrite (IH _ Hsegs). unfold path.step, plain_segment.
  rewrite Hs, orb_false_r.
  destruct (String.eqb s "" || String.eqb s "."); simpl; [reflexivity|].
  by rewrite <- app_assoc.
Qed.

Lemma isAbsolute_app a b :
  a <> "" -> path.isAbsolute (a +:+ b) = path.isAbsolute a.
Proof. by destruct a. Qed.

Lemma truthy_iff s : JsString.truthy s = true <-> s <> "".
Proof. by destruct s. Qed.

(** The text [join] normalizes, for a root, a session and a relative
    path. *)
Lemma joined_file root sid p :
  sid <> "" -> p <> "" ->
  path.joined [root; sid; p] = path.joined [root; sid] +:+ String path.SLASH p.
Proof.
  intros Hs Hp. unfold path.joined. simpl.
  apply truthy_iff in Hs, Hp. rewrite Hs, Hp.
  destruct (JsString.truthy root); simpl;
    by rewrite ?append_assoc.
Qed.

Lemma joined_session_nonempty root sid :
  sid <> "" -> path.joined [root; sid] <> "".
Proof.
  intros Hs. unfold path.joined. simpl. apply truthy_iff in Hs as Hs'.
  rewrite Hs'. destruct (JsString.truthy root) eqn:E; simpl.
  - destruct root; [done|]. discriminate.
  - done.
Qed.

(** Without [..] in the relative path, the segments of the output path are
    those of the session directory followed by those of the relative
    path. *)
Lemma segments_file root sid p :
  sid <> "" ->
  forallb (fun seg => negb (String.eqb seg ".."))
    (JsString.split path.SLASH p) = true ->
  path.segments (path.joined [root; sid; p])
  = path.segments (path.joined [root; sid])
    ++ List.filter plain_segment (JsString.split path.SLASH p).
Proof.
  intros Hs Hp. destruct (decide (p = "")) as [->|Hne].
  - replace (path.joined [root; sid; ""]) with (path.joined [root; sid]).
    + simpl. by rewrite app_nil_r.
    + unfold path.joined. simpl.
      by destruct (JsString.truthy root), (JsString.truthy sid).
  - rewrite joined_file by done.
    unfold path.segments, path.normalizeString.
    rewrite isAbsolute_app by (by apply joined_session_nonempty).
    rewrite split_app_sep, fold_left_app.
    rewrite (fold_step_without_dotdot _ _ _ Hp).
    by rewrite rev_app_distr, rev_involutive.
Qed.

(** C9, as stated, fails: [saveFile] checks nothing.  In the session [a1]
    under [./output], the relative path [../../escape.txt] is written to
    [escape.txt], beside the root and not under [output/a1]. *)
Lemma saveFile_follows_dotdot_out_of_root :
  let w' := exec (@saveFile node (Some "../../escape.txt") (Some "x"))
              established in
  path.join ["./output"; "a1"] = "output/a1"
  /\ path.segments (path.joined ["./output"; "a1"]) = ["output"; "a1"]
  /\ path.segments (path.joined ["./output"; "a1"; "../../escape.txt"])
     = ["escape.txt"]
  /\ fs_ops w' = [Mkdir "."; WriteFile "escape.txt" "x"]
  /\ disk w' !! "escape.txt" = Some "x".
Proof. repeat split; vm_compute; reflexivity. Qed.

Section PathClaims.
Context `{rt : Runtime}.

(** C9, amended.  With the session established, [saveFile] writes the
    contents at [path.join(OUTPUT_DIR, agentId, relativePath)], whatever
    the relative path: nothing is rejected.  The file is under the
    directory of the session when the relative path has no [..] segment:
    the segments of its normalized path are then those of the session
    directory, followed by the segments of the relative path. *)
Theorem saveFile_leaves_session_directory_only_through_dotdot
    (sid p c : string) (w : World) :
  agentId w = Some (JString sid) -> sid <> "" ->
  mkdir_ok (path.dirname (output_path sid p)) = true ->
  writeFile_ok (output_path sid p) = true ->
  let w' := exec (saveFile (Some p) (Some c)) w in
  disk w' = <[output_path sid p := c]> (disk w)
  /\ filesMap w' = <[p := c]> (filesMap w)
  /\ output_path sid p = path.normalize (path.joined [OUTPUT_DIR; sid; p])
  /\ (forallb (fun seg => negb (String.eqb seg ".."))
        (JsString.split path.SLASH p) = true ->
      path.segments (path.joined [OUTPUT_DIR; sid; p])
      = path.segments (path.joined [OUTPUT_DIR; sid])
        ++ List.filter plain_segment (JsString.split path.SLASH p)).
Proof.
  intros Hid Hne Hm Hw w'. unfold w', exec.
  rewrite (saveFile_established sid p c w) by done. simpl.
  split; [reflexivity|]. split; [reflexivity|]. split.
  - unfold output_path, path.join. simpl.
    apply truthy_iff in Hne. rewrite Hne.
    by destruct (JsString.truthy OUTPUT_DIR), (JsString.truthy p).
  - by apply segments_file.
Qed.

End PathClaims.

Lemma saveFile_leaves_session_directory_only_through_dotdot_witness :
  agentId established = Some (JString "a1")
  /\ forallb (fun seg => negb (String.eqb seg ".."))
       (JsString.split path.SLASH "src/./App.tsx") = true
  /\ disk (exec (@saveFile node (Some "src/./App.tsx") (Some "x")) established)
     = <["output/a1/src/App.tsx" := "x"]> (disk established)
  /\ path.segments (path.joined ["./output"; "a1"; "src/./App.tsx"])
     = ["output"; "a1"] ++ ["src"; "App.tsx"].
Proof.
  split; [reflexivity|]. split; [reflexivity|].
  pose proof
    (@saveFile_leaves_session_directory_only_through_dotdot node
       "a1" "src/./App.tsx" "x" established eq_refl
       ltac:(discriminate) eq_refl eq_refl) as H.
  cbv zeta in H. destruct H as (Hdisk & _ & _ & Hseg).
  split; [exact Hdisk|exact (Hseg eq_refl)].
Defined.

(** ** Code units *)

Ltac div_lia := zify; Z.to_euclidean_division_equations; lia.

Lemma width_pos c : 1 <= JsString.width c.
Proof. unfold JsString.width. repeat case_match; lia. Qed.

Lemma length_drop n s :
  String.length (JsString.drop n s) = String.length s - n.
Proof.
  revert s. induction n as [|n IH]; intros [|c s]; simpl; auto.
Qed.

Lemma take_drop n s : JsString.take n s +:+ JsString.drop n s = s.
Proof.
  revert s. induction n as [|n IH]; intros [|c s]; simpl; auto.
  rewrite append_cons. by rewrite IH.
Qed.

Lemma units_from_enough fuel : forall s,
  String.length s <= fuel ->
  JsString.units_from fuel s = JsString.units s.
Proof.
  unfold JsString.units.
  induction fuel as [fuel IH] using lt_wf_ind. intros s Hs.
  destruct s as [|c r]; [by destruct fuel|].
  destruct fuel as [|fuel]; [simpl in Hs; lia|].
  cbn [JsString.units_from String.length]. f_equal.
  pose proof (width_pos c).
  pose proof (length_drop (JsString.width c) (String c r)) as Hl.
  simpl String.length in Hl, Hs.
  rewrite (IH fuel) by lia. symmetry. apply IH; lia.
Qed.

Lemma units_cons c r :
  JsString.units (String c r)
  = JsString.char_units (JsString.take (JsString.width c) (String c r))
    ++ JsString.units (JsString.drop (JsString.width c) (String c r)).
Proof.
  unfold JsString.units at 1. cbn [String.length JsString.units_from].
  f_equal. apply units_from_enough.
  pose proof (width_pos c).
  pose proof (length_drop (JsString.width c) (String c r)) as Hl.
  simpl String.length in Hl. lia.
Qed.

Lemma substring0_nil n : JsString.substring0 n "" = "".
Proof. by destruct n. Qed.

Lemma substring0_cons n c r :
  JsString.substring0 (S n) (String c r)
  = if JsString.width c =? 4 then
      match n with
      | 0 => JsString.three_bytes
               (JsString.high_surrogate
                  (JsString.code_point (JsString.take 4 (String c r))))
      | S n' =>
          JsString.take 4 (String c r)
          +:+ JsString.substring0 n' (JsString.drop 4 (String c r))
      end
    else
      JsString.take (JsString.width c) (String c r)
      +:+ JsString.substring0 n
            (JsString.drop (JsString.width c) (String c r)).
Proof. reflexivity. Qed.

Lemma length_take n s :
  String.length (JsString.take n s) = min n (String.length s).
Proof.
  revert s. induction n as [|n IH]; intros [|c s]; simpl; auto.
Qed.

Lemma take_all n s : String.length s <= n -> JsString.take n s = s.
Proof.
  revert s. induction n as [|n IH]; intros [|c s]; simpl; auto; try lia.
  intros H. f_equal. apply IH. lia.
Qed.

Lemma drop_all n s : String.length s <= n -> JsString.drop n s = "".
Proof.
  revert s. induction n as [|n IH]; intros [|c s]; simpl; auto; try lia.
  intros H. apply IH. lia.
Qed.

Lemma take_app_exact n s t :
  String.length s = n -> JsString.take n (s +:+ t) = s.
Proof.
  revert s. induction n as [|n IH]; intros [|c s]; simpl; try done.
  intros [= H]. f_equal. by apply IH.
Qed.

Lemma drop_app_exact n s t :
  String.length s = n -> JsString.drop n (s +:+ t) = t.
Proof.
  revert s. induction n as [|n IH]; intros [|c s]; simpl; try done.
  intros [= H]. by apply IH.
Qed.

(** A whole character in front of a text. *)
Lemma units_char_app c r t :
  let ch := JsString.take (JsString.width c) (String c r) in
  String.length ch = JsString.width c \/ t = "" ->
  JsString.units (ch +:+ t) = JsString.char_units ch ++ JsString.units t.
Proof.
  intros ch H. pose proof (width_pos c) as Hw.
  assert (Hch : exists x, ch = String c x).
  { unfold ch. destruct (JsString.width c); [lia|]. simpl. eauto. }
  destruct Hch as [x Hx].
  destruct H as [H| ->].
  - rewrite Hx, append_cons, units_cons, <- append_cons, <- Hx.
    by rewrite take_app_exact, drop_app_exact.
  - rewrite append_nil_r, app_nil_r. rewrite Hx at 1. rewrite units_cons.
    rewrite <- Hx.
    assert (Hl : String.length ch <= JsString.width c).
    { unfold ch. rewrite length_take. lia. }
    rewrite take_all, drop_all by done. by rewrite app_nil_r.
Qed.

Lemma N_of_ascii_bound c : (N_of_ascii c < 256)%N.
Proof. destruct c as [[] [] [] [] [] [] [] []]; vm_compute; reflexivity. Qed.

Lemma byte_at_bound i s : (JsString.byte_at i s < 256)%N.
Proof.
  unfold JsString.byte_at. destruct (String.get i s); [|lia].
  apply N_of_ascii_bound.
Qed.

Lemma units_three_bytes u :
  (u < 65536)%N -> JsString.units (JsString.three_bytes u) = [u].
Proof.
  intros Hu. unfold JsString.three_bytes. rewrite units_cons.
  assert (H0 : N_of_ascii (ascii_of_N (224 + u / 4096)) = (224 + u / 4096)%N)
    by (apply N_ascii_embedding; div_lia).
  assert (H1 : N_of_ascii (ascii_of_N (128 + (u / 64) mod 64))
               = (128 + (u / 64) mod 64)%N)
    by (apply N_ascii_embedding; div_lia).
  assert (H2 : N_of_ascii (ascii_of_N (128 + u mod 64)) = (128 + u mod 64)%N)
    by (apply N_ascii_embedding; div_lia).
  assert (Hw : JsString.width (ascii_of_N (224 + u / 4096)) = 3).
  { unfold JsString.width. rewrite H0.
    assert (Ha : (224 + u / 4096 <? 192)%N = false)
      by (apply N.ltb_ge; div_lia).
    assert (Hb : (224 + u / 4096 <? 224)%N = false)
      by (apply N.ltb_ge; div_lia).
    assert (Hc : (224 + u / 4096 <? 240)%N = true)
      by (apply N.ltb_lt; div_lia).
    by rewrite Ha, Hb, Hc. }
  rewrite Hw. cbn [JsString.take JsString.drop].
  change (JsString.units "") with (@nil N). rewrite app_nil_r.
  unfold JsString.char_units, JsString.code_point. rewrite Hw.
  cbn [Nat.eqb]. unfold JsString.byte_at. cbn [String.get].
  rewrite H0, H1, H2. f_equal. div_lia.
Qed.

Lemma high_surrogate_bound ch :
  (JsString.high_surrogate (JsString.code_point ch) < 65536)%N.
Proof.
  unfold JsString.high_surrogate.
  assert (H : (JsString.code_point ch < 2097152)%N).
  { unfold JsString.code_point. destruct ch as [|c r]; [lia|].
    pose proof (byte_at_bound 0 (String c r)).
    pose proof (byte_at_bound 1 (String c r)).
    pose proof (byte_at_bound 2 (String c r)).
    pose proof (byte_at_bound 3 (String c r)).
    repeat case_match; div_lia. }
  div_lia.
Qed.

(** [substring(0, n)] keeps the first [n] code units. *)
Lemma units_substring0 n : forall s,
  JsString.units (JsString.substring0 n s) = take n (JsString.units s).
Proof.
  induction n as [n IH] using lt_wf_ind. intros s.
  destruct n as [|n']; [by destruct s|].
  destruct s as [|c r]; [reflexivity|].
  rewrite substring0_cons, (units_cons c r).
  set (s := String c r).
  assert (Hrest : forall k m,
            String.length (JsString.take k s) = k
            \/ JsString.substring0 m (JsString.drop k s) = "").
  { intros k m. rewrite length_take.
    destruct (decide (k <= String.length s)) as [Hk|Hk]; [left; lia|].
    right. rewrite drop_all by lia. apply substring0_nil. }
  unfold JsString.char_units at 1.
  assert (Hx : exists x, JsString.take (JsString.width c) s = String c x).
  { pose proof (width_pos c). unfold s.
    destruct (JsString.width c); [lia|]. simpl. eauto. }
  destruct Hx as [x Hx]. rewrite Hx.
  destruct (JsString.width c =? 4) eqn:E4.
  - apply Nat.eqb_eq in E4. rewrite E4 in *. rewrite <- Hx.
    destruct n' as [|n''].
    + rewrite units_three_bytes by apply high_surrogate_bound. reflexivity.
    + pose proof (units_char_app c r
                    (JsString.substring0 n'' (JsString.drop 4 s))) as Hu.
      rewrite E4 in Hu. fold s in Hu. cbv zeta in Hu.
      rewrite Hu by apply Hrest.
      unfold JsString.char_units. rewrite Hx, E4. cbn [Nat.eqb].
      rewrite IH by lia. reflexivity.
  - rewrite <- Hx.
    pose proof (units_char_app c r
                  (JsString.substring0 n'
                     (JsString.drop (JsString.width c) s))) as Hu.
    fold s in Hu. cbv zeta in Hu. rewrite Hu by apply Hrest.
    unfold JsString.char_units. rewrite Hx, E4.
    rewrite IH by lia. reflexivity.
Qed.

(** A text of [n] code units at most is kept whole. *)
Lemma substring0_whole n : forall s,
  List.length (JsString.units s) <= n -> JsString.substring0 n s = s.
Proof.
  induction n as [n IH] using lt_wf_ind. intros s.
  destruct s as [|c r]; [by destruct n|].
  rewrite (units_cons c r). set (s := String c r).
  rewrite length_app. unfold JsString.char_units.
  assert (Hx : exists x, JsString.take (JsString.width c) s = String c x).
  { pose proof (width_pos c). unfold s.
    destruct (JsString.width c); [lia|]. simpl. eauto. }
  destruct Hx as [x Hx]. rewrite Hx.
  destruct (JsString.width c =? 4) eqn:E4; simpl List.length; intros H.
  - destruct n as [|[|n'']]; try lia.
    unfold s at 1. rewrite substring0_cons. fold s. rewrite E4.
    apply Nat.eqb_eq in E4. rewrite E4 in *.
    rewrite IH by lia. apply take_drop.
  - destruct n as [|n']; try lia.
    unfold s at 1. rewrite substring0_cons. fold s. rewrite E4.
    rewrite IH by lia. apply take_drop.
Qed.
(** * Further properties *)

(** ** The creation stream, continued *)

Section ReaderMore.
Context `{rt : Runtime}.

Lemma processLines_returns lines : forall w, fst (processLines lines w) = Ok tt.
Proof.
  induction lines as [|l ls IH]; intros w; [reflexivity|].
  simpl. rewrite bind_unfold.
  destruct (processLine_returns l w) as [w' E]. rewrite E.
  destruct (negb (blank l) && String.eqb l "terminate"); [reflexivity|].
  apply IH.
Qed.

Lemma readLoop_returns reads : forall buffer w,
  fst (readLoop buffer reads w) = Ok tt.
Proof.
  induction reads as [|r rs IH]; intros buffer w; [reflexivity|].
  simpl. rewrite bind_unfold.
  pose proof (processLines_returns
                (JsString.pop (JsString.split LF (buffer +:+ r))).2 w) as H.
  destruct (processLines _ w) as [[[]|e] w']; [apply IH|discriminate].
Qed.

(** What one line does: it leaves all but the identity and the terminal,
    and the identity it leaves is the one it found or a whole one. *)
Lemma processLine_identity line w :
  let w' := (processLine line w).2 in
  beside_identity w' = beside_identity w
  /\ ((agentId w' = agentId w /\ websocketUrl w' = websocketUrl w)
      \/ (truthy (agentId w') = true /\ truthy (websocketUrl w') = true)).
Proof.
  unfold processLine.
  destruct (negb (JsString.truthy (JsString.trim line)));
    [simpl; by auto|].
  destruct (String.eqb line "terminate"); [simpl; by auto|].
  cbv [bind try_catch]. destruct (JSON_parse line) as [data|];
    [|simpl; by auto].
  destruct data;
    try (simpl; by auto);
    match goal with
    | |- context [if ?b && ?c then _ else _] => destruct (b && c) eqn:E
    end;
    try (match goal with
         | |- context [if ?b then _ else _] => destruct b
         end; simpl; by auto).
  all: apply andb_true_iff in E.
  all: cbv [modify get show ret throw]; simpl.
  all: match goal with
       | |- context [match ?t with _ => _ end] =>
           destruct t as [[]|]
       end; simpl; by auto.
Qed.

Lemma readLoop_identity reads : forall buffer w,
  let w' := exec (readLoop buffer reads) w in
  beside_identity w' = beside_identity w
  /\ (identity_whole w -> identity_whole w').
Proof.
  assert (Hlines : forall lines w,
            let w' := exec (processLines lines) w in
            beside_identity w' = beside_identity w
            /\ (identity_whole w -> identity_whole w')).
  { induction lines as [|l ls IH]; intros w; [by split|].
    unfold exec. simpl. rewrite bind_unfold.
    pose proof (processLine_identity l w) as Hl.
    destruct (processLine_returns l w) as [v E]. rewrite E in *.
    simpl in Hl. destruct Hl as [Hb Hi].
    assert (Hv : identity_whole w -> identity_whole v).
    { intros Hw. destruct Hi as [[Ha Hu]|Ht]; [|by right].
      unfold identity_whole. by rewrite Ha, Hu. }
    destruct (negb (blank l) && String.eqb l "terminate"); [by split|].
    destruct (IH v) as [Hb' Hi'].
    split; [exact (eq_trans Hb' Hb)|auto]. }
  induction reads as [|r rs IH]; intros buffer w; [by split|].
  unfold exec. cbn [readLoop]. rewrite bind_unfold.
  match goal with
  | |- context [processLines ?l w] =>
      pose proof (processLines_returns l w) as Hr;
      destruct (Hlines l w) as [Hb Hi]; unfold exec in Hb, Hi;
      destruct (processLines l w) as [[[]|e] v]; [|discriminate]
  end.
  match goal with
  | |- context [readLoop ?b rs v] => destruct (IH b v) as [Hb' Hi']
  end.
  unfold exec in Hb', Hi'. simpl in Hb, Hi.
  split; [exact (eq_trans Hb' Hb)|auto].
Qed.

(** What [createAgent] leaves: the state after the chunks it read, and the
    failure printed when there is one. *)
Lemma createAgent_exec fetched w :
  exec (createAgent fetched) w
  = print (match failure fetched with
           | Some _ => [ShowCreateFailed]
           | None => []
           end)
      (exec (readLoop "" (chunks_read fetched))
         (print [ShowStarting; ShowCreatingAgent] w)).
Proof.
  unfold exec, createAgent, failure, chunks_read. run. unfold try_catch.
  rewrite print_print. simpl app.
  destruct fetched as [e|response]; simpl; [reflexivity|].
  destruct (ok response); simpl.
  - destruct (body response) as [stream|]; simpl; [|reflexivity].
    rewrite bind_unfold.
    pose proof (readLoop_returns (chunks stream) ""
                  (print [ShowStarting; ShowCreatingAgent] w)) as H.
    destruct (readLoop "" (chunks stream) _) as [[[]|e] v]; [|discriminate].
    destruct (ending stream); simpl; [by rewrite print_nil|reflexivity].
  - by destruct (text response).
Qed.

(** X1.  The causes of a failure of [createAgent] are its request, which
    rejects, an answer that is not ok, an answer without a body and a read
    of the body that rejects; no line of the body is one: a line that is
    not JSON, or whose fields cannot be read, is printed and skipped.
    When it fails, what it read before is done: the state is the one the
    chunks read have left, the identity of the session included, with the
    failure printed last. *)
Theorem createAgent_fails_only_on_a_bad_answer
    (fetched : Fetch) (w : World) :
  let read := exec (readLoop "" (chunks_read fetched))
                (print [ShowStarting; ShowCreatingAgent] w) in
  createAgent fetched w
  = match failure fetched with
    | Some e => (Throw e, print [ShowCreateFailed] read)
    | None => (Ok tt, read)
    end.
Proof.
  unfold exec, createAgent, failure, chunks_read. run. unfold try_catch.
  rewrite print_print. simpl app.
  destruct fetched as [e|response]; simpl; [reflexivity|].
  destruct (ok response); simpl.
  - destruct (body response) as [stream|]; simpl; [|reflexivity].
    rewrite bind_unfold.
    pose proof (readLoop_returns (chunks stream) ""
                  (print [ShowStarting; ShowCreatingAgent] w)) as H.
    destruct (readLoop "" (chunks stream) _) as [[[]|e] v]; [|discriminate].
    by destruct (ending stream).
  - by destruct (text response).
Qed.

(** X2.  The creation stream writes no file, sends nothing and stores no
    URL: of the state it changes the identity of the session and the
    terminal only, however its request settles. *)
Theorem creation_stream_changes_only_the_identity
    (fetched : Fetch) (w : World) :
  beside_identity (exec (createAgent fetched) w) = beside_identity w.
Proof.
  rewrite createAgent_exec.
  destruct (readLoop_identity (chunks_read fetched) ""
              (print [ShowStarting; ShowCreatingAgent] w)) as [H _].
  exact H.
Qed.

(** X3.  [agentId] and [websocketUrl] are assigned together, from values
    that are truthy: when both were unset or both truthy before the stream,
    they are after it.  The two tests of [main] on them agree. *)
Theorem creation_stream_sets_the_identity_whole
    (fetched : Fetch) (w : World) :
  identity_whole w -> identity_whole (exec (createAgent fetched) w).
Proof.
  intros Hw. rewrite createAgent_exec.
  destruct (readLoop_identity (chunks_read fetched) ""
              (print [ShowStarting; ShowCreatingAgent] w)) as [_ H].
  exact (H Hw).
Qed.

(** X4.  A line with [agentId] and [websocketUrl] but no [template] sets the
    identity of the session all the same, and is then reported as a line
    that failed to parse: reading [template.name] throws after the two
    assignments. *)
Theorem session_line_without_template_sets_the_identity
    (line : string) (data : json) (w : World) :
  blank line = false -> line <> "terminate" ->
  JSON_parse line = Some data ->
  truthy (prop "agentId" data) = true ->
  truthy (prop "websocketUrl" data) = true ->
  prop "template" data = None ->
  processLine line w
  = (Ok false,
     print [ShowAgentCreated (prop "agentId" data);
            ShowWebSocket (prop "websocketUrl" data);
            ShowParseFailure line]
       (set_websocketUrl (prop "websocketUrl" data)
          (set_agentId (prop "agentId" data) w))).
Proof.
  intros Hb Hl Hp Ha Hu Ht. unfold processLine, blank in *.
  apply negb_false_iff in Hb. rewrite Hb. simpl.
  apply String.eqb_neq in Hl. rewrite Hl, Hp.
  destruct data; try discriminate.
  rewrite Ha, Hu, Ht. simpl.
  cbv [bind modify show ret get throw try_catch]. simpl.
  unfold print, set_websocketUrl, set_agentId. simpl.
  by rewrite <- !app_assoc.
Qed.

(** X5.  How the network cuts the body into reads does not matter, as
    long as only blank lines follow a sentinel line: two answers that
    deliver the same text and end the same way give the same result, state
    and terminal. *)
Theorem creation_stream_is_independent_of_the_cut
    (code : Z) (note : Result string) (reads1 reads2 : list string)
    (ending : Ending) (w : World) :
  delivered reads1 = delivered reads2 ->
  sentinel_last (complete_lines (delivered reads1)) = true ->
  createAgent
    (Answered (mkResponse true code note (Some (mkBody reads1 ending)))) w
  = createAgent
      (Answered (mkResponse true code note (Some (mkBody reads2 ending)))) w.
Proof.
  intros E H. unfold createAgent. run. unfold try_catch. simpl.
  rewrite !bind_unfold.
  by rewrite (readLoop_split_independent reads1 reads2).
Qed.

(** X6.  Blank lines count for nothing: a batch of lines gives what it gives
    without them. *)
Theorem blank_lines_are_skipped (lines : list string) (w : World) :
  processLines (List.filter (fun l => negb (blank l)) lines) w
  = processLines lines w.
Proof.
  revert w. induction lines as [|l ls IH]; intros w; [reflexivity|].
  simpl. destruct (blank l) eqn:E; simpl.
  - rewrite bind_unfold, (processLine_blank _ _ E). apply IH.
  - rewrite !bind_unfold.
    destruct (processLine l w) as [[[]|e] v]; auto.
Qed.

End ReaderMore.

Lemma creation_stream_is_independent_of_the_cut_witness :
  let text := [session_line +:+ nl +:+ chunk_line "plan" +:+ nl
               +:+ "terminate" +:+ nl +:+ nl] in
  let cut := [session_line; nl; chunk_line "plan"; nl +:+ "termin";
              "ate" +:+ nl; nl] in
  delivered text = delivered cut
  /\ sentinel_last (complete_lines (delivered text)) = true
  /\ @createAgent node (answer text) initial
     = @createAgent node (answer cut) initial.
Proof.
  cbv zeta. split; [reflexivity|]. split; [vm_compute; reflexivity|].
  apply (@creation_stream_is_independent_of_the_cut node);
    vm_compute; reflexivity.
Defined.

Lemma createAgent_fails_only_on_a_bad_answer_witness :
  let refused :=
    Answered (mkResponse false 500 (Ok "Internal Server Error") None) in
  let broken :=
    Answered (mkResponse true 200 (Ok "")
                (Some (mkBody [session_line +:+ nl]
                         (ReadRejected (Error "terminated"))))) in
  @createAgent node refused initial
  = (Throw (HttpError 500 "Internal Server Error"),
     print [ShowStarting; ShowCreatingAgent; ShowCreateFailed] initial)
  /\ fst (@createAgent node broken initial) = Throw (Error "terminated")
  /\ agentId (exec (@createAgent node broken) initial)
     = Some (JString "a1").
Proof.
  cbv zeta.
  rewrite !(@createAgent_fails_only_on_a_bad_answer node).
  repeat split; vm_compute; reflexivity.
Defined.

Lemma creation_stream_sets_the_identity_whole_witness :
  identity_whole initial
  /\ identity_whole
       (exec (@createAgent node (answer [session_line +:+ nl])) initial).
Proof.
  assert (H : identity_whole initial) by (left; split; reflexivity).
  split; [exact H|].
  exact (@creation_stream_sets_the_identity_whole node
           (answer [session_line +:+ nl]) initial H).
Defined.

Lemma session_line_without_template_sets_the_identity_witness :
  let line :=
    "{" +:+ quoted "agentId" +:+ ":" +:+ quoted "a1" +:+ ","
    +:+ quoted "websocketUrl" +:+ ":" +:+ quoted "ws://x" +:+ "}" in
  agentId (snd (@processLine node line initial)) = Some (JString "a1")
  /\ console (snd (@processLine node line initial))
     = [ShowAgentCreated (Some (JString "a1"));
        ShowWebSocket (Some (JString "ws://x"));
        ShowParseFailure line].
Proof.
  cbv zeta.
  rewrite (@session_line_without_template_sets_the_identity node _
             (JObject [("agentId", JString "a1");
                       ("websocketUrl", JString "ws://x")]) initial);
    [split; reflexivity|vm_compute; reflexivity|discriminate
    |vm_compute; reflexivity|reflexivity|reflexivity|reflexivity].
Defined.
(** ** Files, continued *)

Section FilesMore.
Context `{rt : Runtime}.

(** [saveFile], case by case: it changes neither the file map nor the
    disk; or its write fails after the file was opened, and leaves the
    first bytes of the contents in the file and the file map as it was; or
    it does all it has to do. *)
Lemma saveFile_cases fp c w :
  let w' := exec (saveFile fp c) w in
  connection w' = connection w
  /\ lastDeploymentUrl w' = lastDeploymentUrl w
  /\ console w' = console w
  /\ ((filesMap w' = filesMap w /\ disk w' = disk w
       /\ (truthy (agentId w) = false -> fs_ops w' = fs_ops w)
       /\ (fst (saveFile fp c w) = Ok tt -> truthy (agentId w) = false))
      \/ (exists sid p data n,
            fp = Some p /\ c = Some data
            /\ agentId w = Some (JString sid) /\ sid <> ""
            /\ fst (saveFile fp c w) = Throw (IOError (output_path sid p))
            /\ filesMap w' = filesMap w
            /\ disk w'
               = <[output_path sid p := JsString.take n data]> (disk w))
      \/ (exists sid p data,
            fp = Some p /\ c = Some data
            /\ agentId w = Some (JString sid) /\ sid <> ""
            /\ saveFile fp c w = (Ok tt, after_saveFile sid p data w))).
Proof.
  unfold exec, saveFile, note_saveFile, mkdir, writeFile.
  cbv [bind modify show ret get throw set_filesMap]. simpl.
  destruct (truthy (agentId w)) eqn:Et; simpl; [|by auto 10].
  repeat case_match; simplify_eq; simpl;
    (split; [unfold connection; simpl; congruence|]);
    (split; [reflexivity|]); (split; [reflexivity|]);
    try (left; repeat split; intros; done).
  - right. right. eexists _, _, _. repeat (split; [reflexivity || done|]).
    split.
    + intros ->. simpl in Et. discriminate.
    + unfold after_saveFile, output_path. simpl. f_equal. f_equal; try done.
      by rewrite <- app_assoc.
  - right. left. eexists _, _, _, _.
    repeat (split; [reflexivity || done|]).
    split; [intros ->; simpl in Et; discriminate|].
    by repeat split.
Qed.

Lemma grows_refl w : grows w w.
Proof. unfold grows. by auto 10. Qed.

Lemma grows_trans w1 w2 w3 : grows w1 w2 -> grows w2 w3 -> grows w1 w3.
Proof.
  intros (Hc & Hf & Hd & Hu & Hn) (Hc' & Hf' & Hd' & Hu' & Hn').
  assert (Ha : agentId w2 = agentId w1)
    by (unfold connection in Hc; congruence).
  split; [congruence|]. split; [by etrans|]. split; [by etrans|].
  split.
  - destruct Hu' as [Hu'|Hu']; [|by right].
    destruct Hu as [Hu|Hu]; [left|right]; congruence.
  - intros Ht. destruct (Hn Ht) as (H1 & H2 & H3).
    rewrite <- Ha in Ht. destruct (Hn' Ht) as (H1' & H2' & H3').
    repeat split; congruence.
Qed.

Lemma tame_ret {A} (a : A) : tame (ret a).
Proof. intros w. apply grows_refl. Qed.

Lemma tame_throw {A} e : tame (@throw A e).
Proof. intros w. apply grows_refl. Qed.

Lemma tame_show d : tame (show d).
Proof. intros w. unfold grows. simpl. by auto 10. Qed.

Lemma tame_bind {A B} (c : M A) (k : A -> M B) :
  tame c -> (forall a, tame (k a)) -> tame (bind c k).
Proof.
  intros Hc Hk w. specialize (Hc w). unfold exec in *.
  rewrite bind_unfold. destruct (c w) as [[a|e] v]; simpl in *; [|done].
  eapply grows_trans; [exact Hc|apply Hk].
Qed.

Lemma tame_try_catch {A} (c : M A) (h : Exn -> M A) :
  tame c -> (forall e, tame (h e)) -> tame (try_catch c h).
Proof.
  intros Hc Hh w. specialize (Hc w). unfold exec, try_catch in *.
  destruct (c w) as [[a|e] v]; simpl in *; [done|].
  eapply grows_trans; [exact Hc|apply Hh].
Qed.

Lemma tame_for_of {A} (l : list A) (body : A -> M unit) :
  (forall x, tame (body x)) -> tame (for_of l body).
Proof.
  intros Hb. induction l as [|x l IH]; simpl; [apply tame_ret|].
  apply tame_bind; auto.
Qed.

Lemma tame_saveFile fp c : tame (saveFile fp c).
Proof.
  intros w. destruct (saveFile_cases fp c w) as (Hc & Hu & _ & H).
  split; [exact Hc|].
  destruct H as [(Hf & Hd & Hn & _)
                |[(sid & p & data & n & -> & -> & Hid & Hne & _ & Hf & Hd)
                 |(sid & p & data & -> & -> & Hid & Hne & E)]].
  - rewrite Hf, Hd. by auto 10.
  - rewrite Hf, Hd. split; [done|]. split; [apply dom_insert_subseteq|].
    split; [by left|]. intros Ht. rewrite Hid in Ht. by destruct sid.
  - unfold exec. rewrite E. simpl.
    split; [apply dom_insert_subseteq|]. split; [apply dom_insert_subseteq|].
    split; [by left|]. intros Ht. rewrite Hid in Ht. by destruct sid.
Qed.

(** Storing a URL that is not the empty string. *)
Lemma tame_set_lastDeploymentUrl (u : option string) :
  tame (modify (set_lastDeploymentUrl (u ||| None))).
Proof.
  intros w. unfold grows. simpl. repeat split; auto.
  right. unfold or_else. destruct u as [[|]|]; simpl; discriminate.
Qed.

(** X7.  The file map is set after the write, and only then: when
    [saveFile] throws, whatever the reason, the file map is as it was, and
    so is every file but the one it was writing, which is as it was or
    holds the first bytes of the contents (the directory may have been
    made); when it returns in an established session, the file is on disk
    and in the map, both with the contents given. *)
Theorem saveFile_records_only_what_it_wrote
    (fp c : option string) (w : World) :
  let w' := exec (saveFile fp c) w in
  (fst (saveFile fp c w) <> Ok tt ->
   filesMap w' = filesMap w
   /\ (disk w' = disk w
       \/ exists sid p data n,
            fp = Some p /\ c = Some data /\ agentId w = Some (JString sid)
            /\ disk w'
               = <[output_path sid p := JsString.take n data]> (disk w)))
  /\ (fst (saveFile fp c w) = Ok tt -> truthy (agentId w) = true ->
      exists sid p data,
        fp = Some p /\ c = Some data /\ agentId w = Some (JString sid)
        /\ filesMap w' !! p = Some data
        /\ disk w' !! output_path sid p = Some data).
Proof.
  destruct (saveFile_cases fp c w) as (_ & _ & _ & H). cbv zeta.
  destruct H as [(Hf & Hd & _ & Hr)
                |[(sid & p & data & n & -> & -> & Hid & _ & Ht & Hf & Hd)
                 |(sid & p & data & -> & -> & Hid & _ & E)]].
  - split; [by auto|]. intros Hok Ht. rewrite (Hr Hok) in Ht. discriminate.
  - split; [|by rewrite Ht].
    intros _. split; [exact Hf|]. right. by exists sid, p, data, n.
  - unfold exec. rewrite E. simpl. split; [done|]. intros _ _.
    exists sid, p, data. by rewrite !lookup_insert_eq.
Qed.

(** X8.  A file saved twice holds what was saved last, in the map and on
    disk; saving it again with the same contents changes neither. *)
Theorem saveFile_last_write_wins (sid p c1 c2 : string) (w : World) :
  agentId w = Some (JString sid) -> sid <> "" ->
  mkdir_ok (path.dirname (output_path sid p)) = true ->
  writeFile_ok (output_path sid p) = true ->
  let w1 := exec (saveFile (Some p) (Some c1)) w in
  let w2 := exec (saveFile (Some p) (Some c2)) w1 in
  filesMap w2 = <[p := c2]> (filesMap w)
  /\ disk w2 = <[output_path sid p := c2]> (disk w)
  /\ (c1 = c2 -> filesMap w2 = filesMap w1 /\ disk w2 = disk w1).
Proof.
  intros Hid Hne Hm Hw w1 w2. unfold w2, w1, exec.
  rewrite (saveFile_established sid p c1 w) by done. simpl.
  rewrite (saveFile_established sid p c2) by done. simpl.
  rewrite !insert_insert_eq. split; [done|]. split; [done|].
  by intros ->.
Qed.

(** X9.  A [file_generated] frame with neither [file] nor [filePath] throws in
    an established session, before anything is written or printed. *)
Theorem file_generated_without_a_path_writes_nothing
    (msg : WebSocketResponse.t) (w : World) :
  WebSocketResponse.type msg = "file_generated" ->
  WebSocketResponse.file msg = None ->
  WebSocketResponse.filePath msg = None ->
  truthy (agentId w) = true ->
  let w' := exec (handleWebSocketMessage msg) w in
  fst (handleWebSocketMessage msg w) = Throw TypeError
  /\ filesMap w' = filesMap w /\ disk w' = disk w
  /\ fs_ops w' = fs_ops w /\ console w' = console w.
Proof.
  intros Hty Hf Hp Ht. unfold exec, handleWebSocketMessage.
  rewrite Hty, Hf, Hp. simpl.
  unfold saveFile, note_saveFile.
  cbv [bind modify show ret get throw]. simpl. rewrite Ht. simpl.
  by destruct (agentId w) as [[]|].
Qed.

(** The loop over the entries of a snapshot writes each entry to its
    file, one after the other. *)
Lemma save_entries_disk sid (entries : list (string * FileOutput.t)) :
  forall w,
  agentId w = Some (JString sid) -> sid <> "" ->
  (forall d, mkdir_ok d = true) -> (forall f, writeFile_ok f = true) ->
  disk (exec (for_of entries (fun entry =>
          saveFile (Some entry.1)
                   (Some (FileOutput.fileContents entry.2)))) w)
  = foldl (fun d kv => <[kv.1 := kv.2]> d) (disk w)
      (entry_file sid <$> entries).
Proof.
  induction entries as [|[p f] es IH]; intros w Hid Hne Hm Hw;
    [reflexivity|].
  unfold exec. cbn [for_of]. rewrite bind_unfold. cbn [fst snd].
  rewrite (saveFile_established sid p (FileOutput.fileContents f) w)
    by auto.
  specialize (IH (after_saveFile sid p (FileOutput.fileContents f) w)
                Hid Hne Hm Hw).
  unfold exec in IH. rewrite IH. reflexivity.
Qed.

(** Entries laid over a map one after the other, and laid again. *)
Lemma foldl_insert_union (kvs : list (string * string)) :
  forall m : gmap string string,
  foldl (fun d kv => <[kv.1 := kv.2]> d) m kvs
  = list_to_map (reverse kvs) ∪ m.
Proof.
  induction kvs as [|[k v] kvs IH]; intros m; simpl.
  - by rewrite (left_id_L ∅ (∪)).
  - rewrite IH, reverse_cons, list_to_map_app. simpl.
    rewrite <- (assoc_L (∪)). f_equal.
    by rewrite insert_union_singleton_l, insert_empty.
Qed.

Lemma foldl_insert_twice (kvs : list (string * string))
    (m : gmap string string) :
  foldl (fun d kv => <[kv.1 := kv.2]> d)
    (foldl (fun d kv => <[kv.1 := kv.2]> d) m kvs) kvs
  = foldl (fun d kv => <[kv.1 := kv.2]> d) m kvs.
Proof.
  rewrite !foldl_insert_union, (assoc_L (∪)).
  by rewrite (idemp_L (∪)).
Qed.

End FilesMore.

Lemma saveFile_records_only_what_it_wrote_witness :
  let w' :=
    exec (@saveFile full_disk (Some "a.ts") (Some "export")) established in
  fst (@saveFile full_disk (Some "a.ts") (Some "export") established)
  = Throw (IOError "output/a1/a.ts")
  /\ filesMap w' = filesMap established
  /\ disk w' = {["output/a1/a.ts" := "exp"]}.
Proof.
  cbv zeta. split; [vm_compute; reflexivity|].
  destruct (@saveFile_records_only_what_it_wrote full_disk
              (Some "a.ts") (Some "export") established) as [H _].
  destruct H as [Hf _]; [vm_compute; discriminate|].
  split; [exact Hf|]. vm_compute. reflexivity.
Defined.

Lemma saveFile_last_write_wins_witness :
  let w1 := exec (@saveFile node (Some "a.ts") (Some "old")) established in
  let w2 := exec (@saveFile node (Some "a.ts") (Some "new")) w1 in
  agentId established = Some (JString "a1")
  /\ filesMap w2 = <["a.ts" := "new"]> (filesMap established).
Proof.
  cbv zeta. split; [reflexivity|].
  pose proof (@saveFile_last_write_wins node "a1" "a.ts" "old" "new"
                established eq_refl ltac:(discriminate) eq_refl eq_refl)
    as H.
  cbv zeta in H. exact (proj1 H).
Defined.

Lemma file_generated_without_a_path_writes_nothing_witness :
  let msg := file_frame "file_generated" None None (Some "x") None in
  WebSocketResponse.type msg = "file_generated"
  /\ truthy (agentId established) = true
  /\ fst (@handleWebSocketMessage node msg established) = Throw TypeError
  /\ console (exec (@handleWebSocketMessage node msg) established)
     = console established.
Proof.
  cbv zeta. split; [reflexivity|]. split; [reflexivity|].
  pose proof (@file_generated_without_a_path_writes_nothing node
                (file_frame "file_generated" None None (Some "x") None)
                established eq_refl eq_refl eq_refl eq_refl) as H.
  cbv zeta in H. destruct H as (H1 & _ & _ & _ & H2). by split.
Defined.
(** ** The dispatcher, continued *)

Section DispatchMore.
Context `{rt : Runtime}.

Lemma grows_print out w : grows w (print out w).
Proof. unfold grows. simpl. by auto 10. Qed.

(** A frame that does not act only prints, the same lines whatever the
    state. *)
Lemma quiet_frame msg :
  acts msg = false ->
  exists out, forall w, handleWebSocketMessage msg w = (Ok tt, print out w).
Proof.
  intros H. unfold acts in H.
  repeat (apply one_of_false_cons in H as [? H]).
  unfold handleWebSocketMessage, one_of. cbn [existsb].
  repeat match goal with
         | E : String.eqb _ _ = false |- _ => rewrite E; clear E
         end.
  repeat match goal with
         | |- context [if ?b then _ else _] => destruct b
         | |- context [match ?x with _ => _ end] => destruct x
         end.
  all: first
         [ eexists; intros w; run; rewrite ?print_print; reflexivity
         | exists []; intros w; run; by rewrite print_nil ].
Qed.

(** Every frame is tame. *)
Lemma handle_tame msg : tame (handleWebSocketMessage msg).
Proof.
  destruct (acts msg) eqn:Hacts.
  - unfold acts, one_of in Hacts. simpl in Hacts.
    rewrite orb_false_r in Hacts.
    repeat (apply orb_true_iff in Hacts as [Hacts|Hacts]);
      apply String.eqb_eq in Hacts.
    + unfold handleWebSocketMessage. rewrite Hacts. simpl.
      destruct (WebSocketResponse.state msg) as [[st|l]|];
        try apply tame_throw.
      apply tame_bind; [apply tame_show|intros _].
      apply tame_for_of. intros entry. apply tame_saveFile.
    + unfold handleWebSocketMessage. rewrite Hacts. simpl.
      apply tame_bind; [apply tame_saveFile|intros _].
      apply tame_bind; [|intros size; apply tame_show].
      destruct (truthy_number (WebSocketResponse.size msg));
        [apply tame_ret|].
      repeat case_match; apply tame_ret || apply tame_throw.
    + intros w.
      destruct (completion_frame msg w) as (out & u & E & _).
      { unfold is_completion, one_of. simpl. by rewrite Hacts. }
      unfold exec. rewrite E. simpl.
      eapply grows_trans; [|apply grows_print].
      unfold grows. simpl. repeat split; auto.
      right. intros Hu. apply first_non_empty_truthy in Hu. discriminate.
    + intros w.
      destruct (completion_frame msg w) as (out & u & E & _).
      { unfold is_completion, one_of. by rewrite Hacts. }
      unfold exec. rewrite E. simpl.
      eapply grows_trans; [|apply grows_print].
      unfold grows. simpl. repeat split; auto.
      right. intros Hu. apply first_non_empty_truthy in Hu. discriminate.
  - destruct (quiet_frame msg Hacts) as [out E]. intros w.
    unfold exec. rewrite E. apply grows_print.
Qed.

Lemma receive_tame frames : tame (receive frames).
Proof.
  apply tame_for_of. intros msg. unfold on_message.
  apply tame_try_catch; [apply handle_tame|intros _; apply tame_ret].
Qed.

(** X10.  No inbound frame changes the identity of the session or the channel,
    and none makes the client send anything. *)
Theorem no_frame_touches_the_connection
    (frames : list WebSocketResponse.t) (w : World) :
  connection (exec (receive frames) w) = connection w.
Proof. by destruct (receive_tame frames w) as (H & _). Qed.

(** X11.  The client never deletes: a path in the file map, a file on disk stay
    there whatever frames come. *)
Theorem no_frame_removes_a_file
    (frames : list WebSocketResponse.t) (w : World) :
  dom (filesMap w) ⊆ dom (filesMap (exec (receive frames) w))
  /\ dom (disk w) ⊆ dom (disk (exec (receive frames) w)).
Proof. by destruct (receive_tame frames w) as (_ & H1 & H2 & _). Qed.

(** X12.  The latest URL is [null] or a non-empty string, after any frames: what
    [/url] prints is the URL stored, and it says there is none only when
    none is stored. *)
Theorem latest_url_is_never_empty
    (frames : list WebSocketResponse.t) (w : World) :
  lastDeploymentUrl w <> Some "" ->
  let w' := exec (receive frames) w in
  lastDeploymentUrl w' <> Some ""
  /\ commandLoop_turn "/url" w'
     = (Ok false,
        print [match lastDeploymentUrl w' with
               | Some u => ShowLastDeploymentUrl u
               | None => ShowNoDeploymentUrl
               end] w').
Proof.
  intros Hw w'.
  assert (H : lastDeploymentUrl w' <> Some "").
  { destruct (receive_tame frames w) as (_ & _ & _ & [Hu|Hu] & _);
      [unfold w'; by rewrite Hu|done]. }
  split; [exact H|]. rewrite commandLoop_url.
  by destruct (lastDeploymentUrl w') as [[|]|].
Qed.

(** X13.  Before a session is established no frame writes anything: the file
    map, the disk and the calls of the file system stay as they are. *)
Theorem without_a_session_no_frame_writes
    (frames : list WebSocketResponse.t) (w : World) :
  truthy (agentId w) = false ->
  let w' := exec (receive frames) w in
  filesMap w' = filesMap w /\ disk w' = disk w /\ fs_ops w' = fs_ops w.
Proof.
  intros Ht. by destruct (receive_tame frames w) as (_ & _ & _ & _ & H); auto.
Qed.

(** X14.  Frames other than a connection-sync, a completed file and the two
    deployment completions only print, the same lines whatever the state:
    a sequence of them leaves the state as it was but for the terminal. *)
Theorem frames_that_do_not_act_only_print
    (frames : list WebSocketResponse.t) :
  forallb (fun msg => negb (acts msg)) frames = true ->
  exists out, forall w, receive frames w = (Ok tt, print out w).
Proof.
  induction frames as [|m ms IH]; intros H.
  - exists []. intros w. by rewrite print_nil.
  - simpl in H. apply andb_true_iff in H as [Hm Hms].
    apply negb_true_iff in Hm.
    destruct (quiet_frame m Hm) as [out1 E1].
    destruct (IH Hms) as [out2 E2].
    exists (out1 ++ out2). intros w.
    rewrite receive_cons. unfold exec. rewrite E1. simpl.
    by rewrite E2, print_print.
Qed.

(** X15.  A [conversation_state] frame prints the number of messages it
    brings and the last three of them at most, in order, each with its role
    and the first 80 code units of its content: the content itself when it
    has no more. *)
Theorem conversation_state_shows_the_last_three
    (msg : WebSocketResponse.t) (w : World) :
  WebSocketResponse.type msg = "conversation_state" ->
  let messages := conversation_messages msg in
  exists tail,
    handleWebSocketMessage msg w
    = (Ok tt, print [ShowConversationState (length messages) tail] w)
    /\ length tail = min 3 (length messages)
    /\ tail.*1 = ChatMessage.role <$> slice_last 3 messages
    /\ JsString.units <$> tail.*2
       = (fun m => take 80 (JsString.units (ChatMessage.content m)))
         <$> slice_last 3 messages
    /\ Forall2 (fun text m =>
                  JsString.length (ChatMessage.content m) <= 80 ->
                  text = ChatMessage.content m)
         tail.*2 (slice_last 3 messages).
Proof.
  intros Hty messages.
  exists (List.map
            (fun m => (ChatMessage.role m,
                       JsString.substring0 80 (ChatMessage.content m)))
            (slice_last 3 messages)).
  split; [|split; [|split; [|split]]].
  - unfold handleWebSocketMessage. rewrite Hty. simpl. run. reflexivity.
  - rewrite length_map. unfold slice_last. rewrite length_skipn. lia.
  - rewrite <- list_fmap_compose. reflexivity.
  - rewrite <- !list_fmap_compose. apply list_fmap_ext.
    intros i m _. simpl. apply units_substring0.
  - rewrite <- list_fmap_compose. apply Forall2_fmap_l, Forall_Forall2_diag.
    apply Forall_true. intros m Hm. simpl. by apply substring0_whole.
Qed.

(** What a connection-sync frame leaves in the file map and on disk. *)
Lemma agent_connected_files msg st sid w :
  WebSocketResponse.type msg = "agent_connected" ->
  WebSocketResponse.state msg = Some (AgentStateOf st) ->
  agentId w = Some (JString sid) -> sid <> "" ->
  (forall d, mkdir_ok d = true) -> (forall f, writeFile_ok f = true) ->
  let entries := map_to_list (AgentState.generatedFilesMap st) in
  let w' := exec (handleWebSocketMessage msg) w in
  filesMap w' = list_to_map (entry_contents <$> entries) ∪ filesMap w
  /\ disk w'
     = foldl (fun d kv => <[kv.1 := kv.2]> d) (disk w)
         (entry_file sid <$> entries).
Proof.
  intros Hty Hst Hid Hne Hm Hw entries w'.
  set (v := print [ShowAgentConnected (length entries)
                     (AgentState.projectName st)
                     (AgentState.templateName st)
                     (AgentState.currentPhase st)
                     (AgentState.phasesCounter st)] w).
  assert (E : w' = exec (for_of entries (fun entry =>
                saveFile (Some entry.1)
                         (Some (FileOutput.fileContents entry.2)))) v).
  { unfold w', exec, handleWebSocketMessage. rewrite Hty, Hst. simpl.
    run. reflexivity. }
  rewrite E. split.
  - destruct (save_entries sid entries v Hid Hne Hm Hw
                (NoDup_fst_map_to_list _)) as (u & Eu & _ & Hf & _).
    unfold exec. rewrite Eu. exact Hf.
  - by rewrite (save_entries_disk sid entries v).
Qed.

(** X16.  A connection-sync frame received again, as after a reconnection,
    changes nothing in the file map nor on disk: every file holds what the
    first one left. *)
Theorem agent_connected_again_changes_no_file
    (msg : WebSocketResponse.t) (st : AgentState.t) (sid : string)
    (w : World) :
  WebSocketResponse.type msg = "agent_connected" ->
  WebSocketResponse.state msg = Some (AgentStateOf st) ->
  agentId w = Some (JString sid) -> sid <> "" ->
  (forall d, mkdir_ok d = true) -> (forall f, writeFile_ok f = true) ->
  let once := exec (receive [msg]) w in
  let twice := exec (receive [msg; msg]) w in
  filesMap twice = filesMap once /\ disk twice = disk once.
Proof.
  intros Hty Hst Hid Hne Hm Hw once twice. unfold once, twice.
  rewrite !exec_receive_cons. change (exec (receive []) ?x) with x.
  set (w1 := exec (handleWebSocketMessage msg) w).
  assert (Hid1 : agentId w1 = Some (JString sid)).
  { destruct (handle_tame msg w) as (Hc & _). fold w1 in Hc.
    unfold connection in Hc. congruence. }
  destruct (agent_connected_files msg st sid w Hty Hst Hid Hne Hm Hw)
    as [Hf Hd].
  destruct (agent_connected_files msg st sid w1 Hty Hst Hid1 Hne Hm Hw)
    as [Hf1 Hd1].
  cbv zeta in *. fold w1 in Hf, Hd. split.
  - rewrite Hf1, Hf, (assoc_L (∪)). by rewrite (idemp_L (∪)).
  - rewrite Hd1, Hd. apply foldl_insert_twice.
Qed.

End DispatchMore.

Lemma latest_url_is_never_empty_witness :
  let frames := [preview_completed (Some "https://p.example") None None;
                 production_completed None (Some "")] in
  let w' := exec (@receive node frames) established in
  lastDeploymentUrl established <> Some ""
  /\ lastDeploymentUrl w' = None
  /\ commandLoop_turn "/url" w' = (Ok false, print [ShowNoDeploymentUrl] w').
Proof.
  cbv zeta. split; [discriminate|]. split; [vm_compute; reflexivity|].
  pose proof (@latest_url_is_never_empty node
                [preview_completed (Some "https://p.example") None None;
                 production_completed None (Some "")]
                established ltac:(discriminate)) as H.
  cbv zeta in H. exact (proj2 H).
Defined.

Lemma without_a_session_no_frame_writes_witness :
  let frames :=
    [file_frame "file_generated" (Some "a.ts") None (Some "x") None;
     agent_connected_frame {["b.ts" := FileOutput.mk "b.ts" "B" None]}] in
  let w' := exec (@receive node frames) initial in
  truthy (agentId initial) = false
  /\ filesMap w' = filesMap initial /\ disk w' = disk initial
  /\ fs_ops w' = fs_ops initial.
Proof.
  cbv zeta. split; [reflexivity|].
  apply (@without_a_session_no_frame_writes node). reflexivity.
Defined.

Lemma frames_that_do_not_act_only_print_witness :
  let frames :=
    [phase_frame "phase_generating" 1;
     file_frame "file_chunk_generated" (Some "a.ts") (Some "x") None None;
     WebSocketResponse.bare "pong"] in
  forallb (fun msg => negb (acts msg)) frames = true
  /\ exists out, forall w, @receive node frames w = (Ok tt, print out w).
Proof.
  cbv zeta. split; [reflexivity|].
  apply (@frames_that_do_not_act_only_print node). reflexivity.
Defined.

Lemma conversation_state_shows_the_last_three_witness :
  WebSocketResponse.type (conversation_frame talk) = "conversation_state"
  /\ @handleWebSocketMessage node (conversation_frame talk) initial
     = (Ok tt,
        print [ShowConversationState 4
                 [(assistant, "which framework?");
                  (user, copies 50 e_acute);
                  (assistant,
                   copies 79 "a" +:+ JsString.three_bytes 55357)]]
          initial)
  /\ exists tail,
       @handleWebSocketMessage node (conversation_frame talk) initial
       = (Ok tt, print [ShowConversationState 4 tail] initial)
       /\ length tail = 3.
Proof.
  split; [reflexivity|]. split; [vm_compute; reflexivity|].
  destruct (@conversation_state_shows_the_last_three node
              (conversation_frame talk) initial eq_refl)
    as (tail & E & Hl & _).
  exists tail. split; [exact E|exact Hl].
Defined.

Lemma agent_connected_again_changes_no_file_witness :
  let snapshot : gmap string FileOutput.t :=
    {["a.ts" := FileOutput.mk "a.ts" "A" None]} in
  let msg := agent_connected_frame snapshot in
  agentId established = Some (JString "a1")
  /\ filesMap (exec (@receive node [msg; msg]) established)
     = filesMap (exec (@receive node [msg]) established)
  /\ disk (exec (@receive node [msg; msg]) established)
     = disk (exec (@receive node [msg]) established).
Proof.
  cbv zeta. split; [reflexivity|].
  exact (@agent_connected_again_changes_no_file node
           (agent_connected_frame
              {["a.ts" := FileOutput.mk "a.ts" "A" None]})
           (AgentState.mk "todo" "vite"
              {["a.ts" := FileOutput.mk "a.ts" "A" None]} 0 0 [])
           "a1" established eq_refl eq_refl eq_refl
           ltac:(discriminate) (fun _ => eq_refl) (fun _ => eq_refl)).
Defined.
(** ** Commands *)

(** One turn, case by case. *)
Lemma commandLoop_turn_cases command w :
  let w' := exec (commandLoop_turn command) w in
  fst (commandLoop_turn command w) = Ok (is_exit command)
  /\ beside_channel w' = beside_channel w
  /\ (if is_exit command
      then sent w' = sent w
           /\ ws w' = match ws w with
                      | Some _ => Some CLOSING
                      | None => None
                      end
      else ws w' = ws w
           /\ (sent w' = sent w
               \/ (ws w = Some OPEN
                   /\ exists m, sent w' = sent w ++ [m]
                                /\ m <> user_suggestion ""))).
Proof.
  unfold is_exit, exec, commandLoop_turn, sendMessage, ws_close.
  cbv [bind modify show ret get throw]. simpl.
  set (t := JsString.trim command).
  destruct (JsString.truthy t) eqn:Ht; simpl;
    [|clearbody t; destruct t; [simpl; by auto|discriminate]].
  destruct (String.eqb t "/exit") eqn:E0; simpl; [done|].
  repeat (match goal with
          | |- context [if ?b then _ else _] => destruct b eqn:?
          | |- context [match ws w with _ => _ end] =>
              destruct (ws w) as [[]|] eqn:?
          end; simpl);
    repeat split; auto;
    right; (split; [reflexivity|]); eexists; (split; [reflexivity|]);
    try discriminate.
  intros [= Hm]. rewrite Hm in *. discriminate.
Qed.

(** One pass, the prompt included. *)
Lemma commandLoop_pass_cases prompted w :
  let w' := exec (commandLoop_pass prompted) w in
  fst (commandLoop_pass prompted w) = Ok (ends_loop prompted)
  /\ beside_channel w' = beside_channel w
  /\ (if ends_loop prompted
      then sent w' = sent w
           /\ ws w' = match ws w with
                      | Some _ => Some CLOSING
                      | None => None
                      end
      else ws w' = ws w
           /\ (sent w' = sent w
               \/ (ws w = Some OPEN
                   /\ exists m, sent w' = sent w ++ [m]
                                /\ m <> user_suggestion ""))).
Proof.
  destruct prompted as [command|message]; [apply commandLoop_turn_cases|].
  unfold exec, commandLoop_pass, ends_loop.
  destruct (force_closed message); simpl; by auto.
Qed.


(** X18.  Commands act on the channel only: whatever the prompts give,
    the session, the files and the latest URL stay as they are, a prompt
    sends one frame at most, never an empty chat message, and nothing is
    sent on a channel that is not open. *)
Theorem commands_send_one_frame_each_at_most
    (inputs : list Prompted) (w : World) :
  let w' := exec (commandLoop inputs) w in
  beside_channel w' = beside_channel w
  /\ exists frames,
       sent w' = sent w ++ frames
       /\ length frames <= length inputs
       /\ Forall (fun m => m <> user_suggestion "") frames
       /\ (ws w <> Some OPEN -> frames = []).
Proof.
  revert w. induction inputs as [|c cs IH]; intros w.
  - split; [reflexivity|]. exists []. simpl. by rewrite app_nil_r.
  - cbv zeta. unfold exec. cbn [commandLoop]. rewrite bind_unfold.
    destruct (commandLoop_pass_cases c w) as (Hr & Hb & Hs).
    unfold exec in Hb, Hs.
    destruct (commandLoop_pass c w) as [r v]. simpl in Hr, Hb, Hs.
    subst r. simpl. destruct (ends_loop c).
    + simpl. split; [exact Hb|]. exists []. rewrite app_nil_r.
      split; [exact (proj1 Hs)|]. split; [simpl; lia|]. by split.
    + destruct Hs as [Hws Hs].
      destruct (IH v) as (Hb' & fs & Hs' & Hl & Hf & Hn).
      unfold exec in Hb', Hs'. split; [congruence|].
      destruct Hs as [Hs|(Hopen & m & Hs & Hm)].
      * exists fs. rewrite Hs', Hs. split; [reflexivity|].
        split; [simpl; lia|]. split; [exact Hf|].
        intros H. apply Hn. by rewrite Hws.
      * exists (m :: fs). rewrite Hs', Hs, <- app_assoc.
        split; [reflexivity|]. split; [simpl; lia|].
        split; [by constructor|]. intros H. by destruct H.
Qed.


Lemma commands_send_one_frame_each_at_most_witness :
  let inputs := [Typed "/generate"; Typed "/chat hello"; Typed "/deploy"] in
  ws initial <> Some OPEN
  /\ sent (exec (commandLoop inputs) initial) = sent initial
  /\ sent (exec (commandLoop inputs) established)
     = [generate_all; user_suggestion "hello"; deploy].
Proof.
  cbv zeta. split; [discriminate|]. split; [|vm_compute; reflexivity].
  destruct (commands_send_one_frame_each_at_most
              [Typed "/generate"; Typed "/chat hello"; Typed "/deploy"]
              initial)
    as (_ & frames & E & _ & _ & H).
  rewrite E, (H ltac:(discriminate)). apply app_nil_r.
Defined.
(** ** Sizes *)

Lemma tenths_near (num den : Z) :
  (0 < den)%Z -> (den mod 2 = 0)%Z ->
  (Z.abs (10 * num - den * tenths num den) <= den / 2)%Z.
Proof.
  intros Hd He. unfold tenths.
  pose proof (Z.div_mod den 2 ltac:(lia)) as H2.
  pose proof (Z.div_mod (10 * num + den / 2) den ltac:(lia)) as Hq.
  pose proof (Z.mod_pos_bound (10 * num + den / 2) den Hd) as Hr.
  lia.
Qed.

Lemma tenths_mono (a b den : Z) :
  (0 < den)%Z -> (a <= b)%Z -> (tenths a den <= tenths b den)%Z.
Proof. intros Hd Hab. unfold tenths. apply Z.div_le_mono; lia. Qed.

(** X19.  For a number of bytes that is a safe integer, the size shown is
    the number of bytes below 1024, and from there the size in KB up to a
    MB, in MB beyond, with one decimal that is within half a tenth of the
    size.  The figure is never below 1.0; in KB it reaches 1024.0, from
    1048525 bytes to the last byte before a MB. *)
Theorem formatFileSize_is_within_half_a_tenth (bytes : Z) :
  (Z.abs bytes < 2 ^ 53)%Z ->
  ((bytes < 1024)%Z -> formatFileSize bytes = Some (pretty bytes +:+ " B"))
  /\ ((1024 <= bytes < 1024 * 1024)%Z ->
      exists t,
        formatFileSize bytes = Some (fixed1 t +:+ " KB")
        /\ (10 <= t <= 10240)%Z
        /\ (Z.abs (10 * bytes - 1024 * t) <= 512)%Z)
  /\ ((1024 * 1024 <= bytes)%Z ->
      exists t,
        formatFileSize bytes = Some (fixed1 t +:+ " MB")
        /\ (10 <= t)%Z
        /\ (Z.abs (10 * bytes - 1024 * 1024 * t) <= 512 * 1024)%Z)
  /\ ((1048525 <= bytes < 1024 * 1024)%Z ->
      formatFileSize bytes = Some "1024.0 KB").
Proof.
  intros Hsafe. unfold formatFileSize, toFixed1, safe_integer.
  apply Z.ltb_lt in Hsafe. rewrite Hsafe. simpl negb. cbv iota.
  split; [|split; [|split]].
  - intros H. apply Z.ltb_lt in H. by rewrite H.
  - intros [Hlo Hhi].
    apply Z.ltb_ge in Hlo. apply Z.ltb_lt in Hhi. rewrite Hlo, Hhi.
    apply Z.ltb_ge in Hlo. apply Z.ltb_lt in Hhi.
    exists (tenths bytes 1024). split; [reflexivity|]. split.
    + pose proof (tenths_mono 1024 bytes 1024 ltac:(lia) Hlo).
      pose proof (tenths_mono bytes (1024 * 1024 - 1) 1024 ltac:(lia)
                    ltac:(lia)).
      change (tenths 1024 1024) with 10%Z in *.
      change (tenths (1024 * 1024 - 1) 1024) with 10240%Z in *. lia.
    + apply (tenths_near bytes 1024); [lia|reflexivity].
  - intros Hlo.
    assert (H1 : (bytes <? 1024)%Z = false) by (apply Z.ltb_ge; lia).
    apply Z.ltb_ge in Hlo. rewrite H1, Hlo. apply Z.ltb_ge in Hlo.
    exists (tenths bytes (1024 * 1024)). split; [reflexivity|]. split.
    + pose proof (tenths_mono (1024 * 1024) bytes (1024 * 1024)
                    ltac:(lia) Hlo).
      change (tenths (1024 * 1024) (1024 * 1024)) with 10%Z in *. lia.
    + apply (tenths_near bytes (1024 * 1024)); [lia|reflexivity].
  - intros [Hlo Hhi].
    assert (H1 : (bytes <? 1024)%Z = false) by (apply Z.ltb_ge; lia).
    apply Z.ltb_lt in Hhi. rewrite H1, Hhi. apply Z.ltb_lt in Hhi.
    assert (Ht : tenths bytes 1024 = 10240%Z).
    { pose proof (tenths_mono 1048525 bytes 1024 ltac:(lia) Hlo).
      pose proof (tenths_mono bytes (1024 * 1024 - 1) 1024 ltac:(lia)
                    ltac:(lia)).
      change (tenths 1048525 1024) with 10240%Z in *.
      change (tenths (1024 * 1024 - 1) 1024) with 10240%Z in *. lia. }
    rewrite Ht. vm_compute. reflexivity.
Qed.

Lemma formatFileSize_is_within_half_a_tenth_witness :
  formatFileSize 1536 = Some "1.5 KB"
  /\ formatFileSize 1048575 = Some "1024.0 KB"
  /\ exists t, formatFileSize 123456789 = Some (fixed1 t +:+ " MB")
               /\ (Z.abs (10 * 123456789 - 1024 * 1024 * t)
                   <= 512 * 1024)%Z.
Proof.
  split; [vm_compute; reflexivity|]. split.
  - exact (proj2 (proj2 (proj2
             (formatFileSize_is_within_half_a_tenth 1048575
                ltac:(reflexivity))))
             ltac:(lia)).
  - destruct (proj1 (proj2 (proj2
                (formatFileSize_is_within_half_a_tenth 123456789
                   ltac:(reflexivity))))
                ltac:(lia)) as (t & E & _ & H).
    exists t. by split.
Defined.
